(** * The quiz viewer of [src/app.js]: navigation stack and quiz session

    A shallow embedding of the [app] object of [src/app.js]: the content tree
    loaded from [database.json], the navigation stack with [updateView],
    [handleBack] and [renderView], the five render methods, and the closures
    of [renderQuiz] ([handleAnswerSelection], [handleNext], [handlePrev],
    [renderResults]).

    Methods run in a state-and-exception monad over the [app] object: a
    property read on [undefined] raises a [TypeError] that nothing in the
    file catches, and what was assigned before it stays assigned.

    The page is kept as data: which screen [appContainer] shows, the state
    of the controls that handlers or templates set (option buttons and the
    Previous button disabled or not, the explanation shown or not), and the
    closure the listeners of the page are bound to.  Setting [innerHTML]
    drops the elements of the page before with their listeners, so the
    listeners that can run are those of the page on show.  Markup, colours
    and titles are left out.

    What the listener of a card reads from [card.dataset] is a parameter
    of the model, [dataset]: the browser's reading of the attribute that
    the template wrote for the id.

    The database is taken as [database.json] describes it: ids are strings,
    [subjects], [lessons], [quiz] and [options] are arrays, [answerIndex] is
    an integer.  [fetch] and its failure message are outside the model; the
    app starts at the end of a successful [init]. *)

From stdpp Require Import base option list gmap strings.
From Stdlib Require Import ZArith Lia.
From Stdlib Require Import Floats.PrimFloat Floats.FloatOps Floats.SpecFloat.
From Stdlib Require Import Numbers.Cyclic.Int63.Uint63.

Local Open Scope string_scope.
Local Open Scope list_scope.
Local Open Scope Z_scope.

(** ** JavaScript values used by the quiz *)

Module Js.

(** The values a slot of [userAnswers] can hold: [null] after
    [fill(null)], the number passed to [handleAnswerSelection], and
    [undefined] for an index outside the array. *)
Inductive value :=
| Undefined
| Null
| Number (z : Z).

Global Instance value_eq_dec : EqDecision value.
Proof. solve_decision. Defined.

(** [a[i]] *)
Definition get (a : list value) (i : nat) : value :=
  default Undefined (a !! i).

(** [a[i] = v]: in place inside the array, and growing it (with holes that
    read [undefined]) past its end. *)
Definition store (a : list value) (i : nat) (v : value) : list value :=
  if decide (i < length a)%nat then <[i := v]> a
  else a ++ replicate (i - length a) Undefined ++ [v].

(** [new Array(n).fill(null)] *)
Definition filled_null (n : nat) : list value := replicate n Null.

(** [v === k] for a number [k] *)
Definition strict_eq_num (v : value) (k : Z) : bool :=
  match v with
  | Number z => bool_decide (z = k)
  | _ => false
  end.

(** [xs[k]] for a number [k]: [None] is [undefined]. *)
Definition index {A} (xs : list A) (k : Z) : option A :=
  if decide (0 <= k) then xs !! Z.to_nat k else None.

(** [xs[v]] for a value [v]; [null] and [undefined] name no element. *)
Definition index_value {A} (xs : list A) (v : value) : option A :=
  match v with
  | Number z => index xs z
  | _ => None
  end.

(** A string, or [undefined], inside a template literal. *)
Definition template (o : option string) : string :=
  default "undefined" o.

(** The result of [Math.round]. *)
Inductive rounded :=
| Int (z : Z)
| NaN
| Infinite (negative : bool).

Global Instance rounded_eq_dec : EqDecision rounded.
Proof. solve_decision. Defined.

(** An integer as a Number (exact below [2^53]). *)
Definition of_nat (n : nat) : float :=
  PrimFloat.of_uint63 (Uint63.of_Z (Z.of_nat n)).

(** [Math.round]: the integer nearest to the double, a tie going up.
    The double is [(-1)^s * m * 2^e]; the sign of a zero is dropped. *)
Definition Math_round (x : float) : rounded :=
  match Prim2SF x with
  | S754_zero _ => Int 0
  | S754_nan => NaN
  | S754_infinity s => Infinite s
  | S754_finite s m e =>
      let v := if s then Z.neg m else Z.pos m in
      match e with
      | Z.neg p => Int ((2 * v + 2 ^ Z.pos p) `div` 2 ^ (Z.pos p + 1))
      | _ => Int (v * 2 ^ e)
      end
  end.

End Js.

(** ** Content model ([database.json]) *)

Record Question := {
  stem : string;
  options : list string;
  answerIndex : Z;
  explanation : string
}.

Record Lesson := {
  lesson_id : string;
  lesson_title : string;
  lesson_shortDescription : string;
  summary : list (string * string);
  quiz : list Question
}.

Record Subject := {
  subject_id : string;
  subject_title : string;
  subject_shortDescription : string;
  lessons : list Lesson
}.

Record Course := {
  course_title : string;
  color : string;
  subjects : list Subject
}.

(** [this.data]: [courses] is an object used as a map from course id. *)
Record Database := {
  courses : gmap string Course
}.

(** ** View states and the page *)

(** The objects pushed on [navigationStack], by their [type] field. *)
Inductive ViewState :=
| VCourses
| VSubjects (courseId : string)
| VLessons (courseId subjectId : string)
| VLesson (courseId subjectId lessonId : string)
| VQuiz (courseId subjectId lessonId : string).

Global Instance ViewState_eq_dec : EqDecision ViewState.
Proof. solve_decision. Defined.

(** The variables of one call of [renderQuiz], shared by its closures:
    the arguments and [lesson] are never assigned again,
    [currentQuestionIndex] and [userAnswers] are. *)
Record QuizClosure := {
  courseId : string;
  subjectId : string;
  lessonId : string;
  lesson : Lesson;
  currentQuestionIndex : nat;
  userAnswers : list Js.value
}.

Definition quizData (q : QuizClosure) : list Question := quiz (lesson q).

(** Controls of a question page that handlers or the template set. *)
Record QuestionDom := {
  optionCount : nat;
  optionsDisabled : bool;
  prevDisabled : bool;
  explanationShown : bool
}.

(** One [div.incorrect-question] of the results page. *)
Record IncorrectQuestion := {
  shownStem : string;
  yourAnswer : string;
  correctAnswer : string
}.

(** What the results page displays. *)
Record Results := {
  correctAnswers : nat;
  total : nat;
  scorePercentage : Js.rounded;
  resultsHtml : list IncorrectQuestion
}.

(** What [appContainer] holds, with the closure its listeners are bound to. *)
Inductive Screen :=
| Blank
| CourseGrid
| SubjectGrid (courseId : string)
| LessonGrid (courseId subjectId : string)
| LessonPage (courseId subjectId lessonId : string)
| QuestionPage (q : QuizClosure) (d : QuestionDom)
| ResultsPage (q : QuizClosure) (r : Results).

(** The [app] object after [database.json] has been loaded; [data] is
    assigned once by [init] and is a parameter of the methods below.
    The array has its top at the end, as [push] and [pop] have it. *)
Record App := {
  navigationStack : list ViewState;
  view : Screen
}.

(** ** Methods as computations over the [app] object *)

(** How a call ends: with a value, or with an uncaught [TypeError]
    (a property read on [undefined] or [null]). *)
Inductive Completion (A : Type) :=
| Normal (a : A)
| TypeError.
Arguments Normal {A} a.
Arguments TypeError {A}.

(** Assignments made before a [TypeError] stay made. *)
Definition M (A : Type) : Type := App → Completion A * App.

Global Instance M_ret : MRet M := λ A a app, (Normal a, app).

Global Instance M_bind : MBind M := λ A B f m app,
  match m app with
  | (Normal a, app') => f a app'
  | (TypeError, app') => (TypeError, app')
  end.

Definition throw {A} : M A := λ app, (TypeError, app).

(** [o.f] where [o] may be [undefined] *)
Definition prop {A B} (o : option A) (f : A → B) : M B :=
  match o with
  | Some a => mret (f a)
  | None => throw
  end.

Definition getStack : M (list ViewState) :=
  λ app, (Normal (navigationStack app), app).

(** [this.navigationStack.push(state)] *)
Definition push (state : ViewState) : M unit :=
  λ app, (Normal tt,
          {| navigationStack := navigationStack app ++ [state];
             view := view app |}).

(** [this.navigationStack.pop()]: [undefined] on an empty array. *)
Definition pop : M (option ViewState) :=
  λ app, (Normal (last (navigationStack app)),
          {| navigationStack := removelast (navigationStack app);
             view := view app |}).

Definition getView : M Screen := λ app, (Normal (view app), app).

(** [this.appContainer.innerHTML = ...] *)
Definition setInnerHTML (content : Screen) : M unit :=
  λ app, (Normal tt,
          {| navigationStack := navigationStack app; view := content |}).

(** Final state of a call, whichever way it ended. *)
Definition exec {A} (m : M A) (app : App) : App := (m app).2.

(** Generic [forEach((x, index) => ...)] over the variables the callback
    can assign. *)
Fixpoint forEach_from {S A} (body : S → A → nat → S)
    (index : nat) (xs : list A) (s : S) : S :=
  match xs with
  | [] => s
  | x :: xs' => forEach_from body (index + 1)%nat xs' (body s x index)
  end.

Definition forEach {S A} (body : S → A → nat → S) (xs : list A) (s : S) : S :=
  forEach_from body 0%nat xs s.

(** ** The methods of [app] *)

Section Methods.

Variable data : Database.

(** [card.dataset.courseId], [card.dataset.subjectId] and
    [card.dataset.lessonId]: the value the browser reads back from the
    attribute [data-...-id="${id}"] that the template wrote for the id.
    It is the id itself unless the markup changes it (an id holding a
    double quote is cut there, a character reference is decoded). *)
Variable dataset : string → string.

(** [updateView(title, content, state)]: [state] is [None] when the
    argument is omitted or [undefined], and then nothing is pushed. *)
Definition updateView (content : Screen) (state : option ViewState) : M unit :=
  setInnerHTML content ;;
  match state with
  | Some s => push s
  | None => mret tt
  end.

(** [renderCourseList()] *)
Definition renderCourseList : M unit :=
  updateView CourseGrid None.

(** [renderSubjectList(courseId)] *)
Definition renderSubjectList (courseId : string) : M unit :=
  let course := courses data !! courseId in
  _ ← prop course subjects;
  updateView (SubjectGrid courseId) (Some (VSubjects courseId)).

(** [course.subjects.find(s => s.id === subjectId)] *)
Definition find_subject (subjectId : string) (ss : list Subject) : option Subject :=
  List.find (λ s, bool_decide (subject_id s = subjectId)) ss.

(** [subject.lessons.find(l => l.id === lessonId)] *)
Definition find_lesson (lessonId : string) (ls : list Lesson) : option Lesson :=
  List.find (λ l, bool_decide (lesson_id l = lessonId)) ls.

(** [renderLessonList(courseId, subjectId)] *)
Definition renderLessonList (courseId subjectId : string) : M unit :=
  let course := courses data !! courseId in
  ss ← prop course subjects;
  let subject := find_subject subjectId ss in
  _ ← prop subject lessons;
  updateView (LessonGrid courseId subjectId) (Some (VLessons courseId subjectId)).

(** [renderLessonDetail(courseId, subjectId, lessonId)] *)
Definition renderLessonDetail (courseId subjectId lessonId : string) : M unit :=
  let course := courses data !! courseId in
  ss ← prop course subjects;
  let subject := find_subject subjectId ss in
  ls ← prop subject lessons;
  let lesson := find_lesson lessonId ls in
  _ ← prop lesson summary;
  updateView (LessonPage courseId subjectId lessonId)
             (Some (VLesson courseId subjectId lessonId)).

(** *** The closures of [renderQuiz] *)

Definition with_index (q : QuizClosure) (i : nat) : QuizClosure :=
  {| courseId := courseId q; subjectId := subjectId q; lessonId := lessonId q;
     lesson := lesson q; currentQuestionIndex := i;
     userAnswers := userAnswers q |}.

Definition with_answers (q : QuizClosure) (a : list Js.value) : QuizClosure :=
  {| courseId := courseId q; subjectId := subjectId q; lessonId := lessonId q;
     lesson := lesson q; currentQuestionIndex := currentQuestionIndex q;
     userAnswers := a |}.

(** An assignment to a variable of the closure is seen by the listeners of
    the page, which are bound to that closure. *)
Definition assign (q : QuizClosure) : M unit :=
  v ← getView;
  match v with
  | QuestionPage _ d => setInnerHTML (QuestionPage q d)
  | ResultsPage _ r => setInnerHTML (ResultsPage q r)
  | _ => mret tt
  end.

(** [renderCurrentQuestion()] *)
Definition renderCurrentQuestion (q : QuizClosure) : M unit :=
  let question := quizData q !! currentQuestionIndex q in
  opts ← prop question options;
  updateView
    (QuestionPage q
       {| optionCount := length opts;
          optionsDisabled := false;
          prevDisabled := bool_decide (currentQuestionIndex q = 0%nat);
          explanationShown := false |})
    (Some (VQuiz (courseId q) (subjectId q) (lessonId q))).

(** [querySelectorAll('.option-btn')]: how many option buttons the page has. *)
Definition optionButtons : M nat :=
  v ← getView;
  match v with
  | QuestionPage _ d => mret (optionCount d)
  | _ => mret 0%nat
  end.

(** [options.forEach(btn => btn.disabled = true)] *)
Definition disableOptions : M unit :=
  v ← getView;
  match v with
  | QuestionPage q d =>
      setInnerHTML (QuestionPage q
        {| optionCount := optionCount d; optionsDisabled := true;
           prevDisabled := prevDisabled d;
           explanationShown := explanationShown d |})
  | _ => mret tt
  end.

(** [options[k].classList.add(...)]: a [TypeError] when there is no such
    button. *)
Definition markOption (buttons : nat) (k : Z) : M unit :=
  if decide (0 <= k < Z.of_nat buttons) then mret tt else throw.

(** [explanationEl.innerText = ...; explanationEl.style.display = 'block'] *)
Definition showExplanation : M unit :=
  v ← getView;
  match v with
  | QuestionPage q d =>
      setInnerHTML (QuestionPage q
        {| optionCount := optionCount d; optionsDisabled := optionsDisabled d;
           prevDisabled := prevDisabled d; explanationShown := true |})
  | _ => throw
  end.

(** [handleAnswerSelection(selectedIndex)]: returns the closure after the
    assignment to [userAnswers]. *)
Definition handleAnswerSelection (q : QuizClosure) (selectedIndex : Z)
    : M QuizClosure :=
  let q' := with_answers q
              (Js.store (userAnswers q) (currentQuestionIndex q)
                        (Js.Number selectedIndex)) in
  assign q' ;;
  let question := quizData q' !! currentQuestionIndex q' in
  buttons ← optionButtons;
  disableOptions ;;
  correct ← prop question answerIndex;
  (if bool_decide (selectedIndex = correct)
   then markOption buttons selectedIndex
   else markOption buttons selectedIndex ;; markOption buttons correct) ;;
  showExplanation ;;
  mret q'.

(** The variables the callback of [quizData.forEach] in [renderResults]
    can reach: those of the closure, [correctAnswers] and [resultsHtml]. *)
Record ResultsScope := {
  closure : QuizClosure;
  counted : nat;
  html : list IncorrectQuestion
}.

(** The markup appended to [resultsHtml] for a question and the answer
    recorded for it. *)
Definition incorrect_question (answer : Js.value) (question : Question)
    : IncorrectQuestion :=
  {| shownStem := stem question;
     yourAnswer :=
       (if decide (answer ≠ Js.Null)
        then Js.template (Js.index_value (options question) answer)
        else "Not Answered");
     correctAnswer :=
       Js.template (Js.index (options question) (answerIndex question)) |}.

(** The callback [(question, index) => { ... }] of [renderResults]. *)
Definition tally (s : ResultsScope) (question : Question) (index : nat)
    : ResultsScope :=
  let answer := Js.get (userAnswers (closure s)) index in
  if Js.strict_eq_num answer (answerIndex question)
  then {| closure := closure s; counted := (counted s + 1)%nat; html := html s |}
  else {| closure := closure s; counted := counted s;
          html := html s ++ [incorrect_question answer question] |}.

(** [Math.round((correctAnswers / quizData.length) * 100)] *)
Definition percentage (correct len : nat) : Js.rounded :=
  Js.Math_round
    (PrimFloat.mul (PrimFloat.div (Js.of_nat correct) (Js.of_nat len))
                   (Js.of_nat 100)).

(** The loop of [renderResults], from [correctAnswers = 0] and
    [resultsHtml = ''], and what it leaves in scope. *)
Definition results_loop (q : QuizClosure) : ResultsScope :=
  forEach tally (quizData q) {| closure := q; counted := 0; html := [] |}.

Definition results_of (s : ResultsScope) : Results :=
  {| correctAnswers := counted s;
     total := length (quizData (closure s));
     scorePercentage := percentage (counted s) (length (quizData (closure s)));
     resultsHtml := html s |}.

(** [renderResults()]: the state handed to [updateView] is
    [navigationStack[navigationStack.length - 2]]. *)
Definition renderResults (q : QuizClosure) : M QuizClosure :=
  let s := results_loop q in
  stack ← getStack;
  updateView (ResultsPage (closure s) (results_of s))
             (Js.index stack (Z.of_nat (length stack) - 2)) ;;
  mret (closure s).

(** [handleNext()] *)
Definition handleNext (q : QuizClosure) : M QuizClosure :=
  if decide (Z.of_nat (currentQuestionIndex q) < Z.of_nat (length (quizData q)) - 1)
  then
    let q' := with_index q (currentQuestionIndex q + 1)%nat in
    assign q' ;;
    renderCurrentQuestion q' ;;
    mret q'
  else renderResults q.

(** [handlePrev()] *)
Definition handlePrev (q : QuizClosure) : M QuizClosure :=
  if decide (0 < currentQuestionIndex q)%nat
  then
    let q' := with_index q (currentQuestionIndex q - 1)%nat in
    assign q' ;;
    renderCurrentQuestion q' ;;
    mret q'
  else mret q.

(** The variables of a new call of [renderQuiz]:
    [currentQuestionIndex = 0] and
    [userAnswers = new Array(quizData.length).fill(null)]. *)
Definition newQuiz (courseId subjectId lessonId : string) (l : Lesson)
    : QuizClosure :=
  {| courseId := courseId; subjectId := subjectId; lessonId := lessonId;
     lesson := l; currentQuestionIndex := 0;
     userAnswers := Js.filled_null (length (quiz l)) |}.

(** [renderQuiz(courseId, subjectId, lessonId)] *)
Definition renderQuiz (courseId subjectId lessonId : string) : M unit :=
  let course := courses data !! courseId in
  ss ← prop course subjects;
  let subject := find_subject subjectId ss in
  ls ← prop subject lessons;
  let lesson := find_lesson lessonId ls in
  l ← prop lesson id;
  renderCurrentQuestion (newQuiz courseId subjectId lessonId l).

(** *** Back navigation *)

(** [renderView(state)] *)
Definition renderView (state : ViewState) : M unit :=
  match state with
  | VCourses => renderCourseList
  | VSubjects c => renderSubjectList c
  | VLessons c s => renderLessonList c s
  | VLesson c s l => renderLessonDetail c s l
  | VQuiz c s l => renderQuiz c s l
  end.

(** [handleBack()] *)
Definition handleBack : M unit :=
  pop ;;
  stack ← getStack;
  if decide (0 < length stack)%nat
  then
    previousState ← pop;
    s ← prop previousState id;
    renderView s
  else renderCourseList.

(** *** Listeners and events *)

(** A click on an element of the page. *)
Inductive Event :=
| ClickCard (id : string)
| ClickBack
| ClickTest
| ClickOption (index : nat)
| ClickNext
| ClickPrev
| ClickRetry.

(** The ids the template of a grid writes into [data-*-id], one per card. *)
Definition card_ids (v : Screen) : list string :=
  match v with
  | CourseGrid => (map_to_list (courses data)).*1
  | SubjectGrid c =>
      match courses data !! c with
      | Some course => subject_id <$> subjects course
      | None => []
      end
  | LessonGrid c s =>
      match courses data !! c with
      | Some course =>
          match find_subject s (subjects course) with
          | Some subject => lesson_id <$> lessons subject
          | None => []
          end
      | None => []
      end
  | _ => []
  end.

(** What the listeners of the cards of a grid read from [card.dataset]. *)
Definition cards (v : Screen) : list string := dataset <$> card_ids v.

(** The listener a click reaches, if the page has the element and the
    element is not disabled (a disabled button receives no click).  A click
    on a card carries what its listener reads from [card.dataset]. *)
Definition listener (v : Screen) (e : Event) : option (M unit) :=
  match v, e with
  | CourseGrid, ClickCard i =>
      if decide (i ∈ cards v) then Some (renderSubjectList i) else None
  | SubjectGrid c, ClickCard i =>
      if decide (i ∈ cards v) then Some (renderLessonList c i) else None
  | LessonGrid c s, ClickCard i =>
      if decide (i ∈ cards v) then Some (renderLessonDetail c s i) else None
  | LessonPage c s l, ClickTest => Some (renderQuiz c s l)
  | QuestionPage q d, ClickOption i =>
      if decide ((i < optionCount d)%nat ∧ optionsDisabled d = false)
      then Some (handleAnswerSelection q (Z.of_nat i) ;; mret tt)
      else None
  | QuestionPage q d, ClickNext => Some (handleNext q ;; mret tt)
  | QuestionPage q d, ClickPrev =>
      if prevDisabled d then None else Some (handlePrev q ;; mret tt)
  | ResultsPage q r, ClickRetry =>
      Some (renderQuiz (courseId q) (subjectId q) (lessonId q))
  | SubjectGrid _, ClickBack
  | LessonGrid _ _, ClickBack
  | LessonPage _ _ _, ClickBack
  | QuestionPage _ _, ClickBack
  | ResultsPage _ _, ClickBack => Some handleBack
  | _, _ => None
  end.

(** One turn of the event loop: the listener runs to its end or to an
    uncaught [TypeError]; either way the app goes on from the state left. *)
Definition dispatch (e : Event) (app : App) : App :=
  match listener (view app) e with
  | Some h => exec h app
  | None => app
  end.

Definition run (es : list Event) (app : App) : App :=
  foldl (λ a e, dispatch e a) app es.

(** [init()] once [database.json] is loaded: the course list on an empty
    stack. *)
Definition init : App :=
  exec renderCourseList {| navigationStack := []; view := Blank |}.

Inductive reachable : App → Prop :=
| reachable_init : reachable init
| reachable_step e app : reachable app → reachable (dispatch e app).

(** *** The quiz session by its operations *)

(** [next()], [prev()] and [selectAnswer(k)] called on the closure the page
    is bound to, whatever the controls allow. *)
Inductive SessionOp :=
| OpNext
| OpPrev
| OpSelect (k : Z).

Definition session (v : Screen) : option QuizClosure :=
  match v with
  | QuestionPage q _ | ResultsPage q _ => Some q
  | _ => None
  end.

Definition call (op : SessionOp) (app : App) : App :=
  match session (view app) with
  | Some q =>
      match op with
      | OpNext => exec (handleNext q) app
      | OpPrev => exec (handlePrev q) app
      | OpSelect k => exec (handleAnswerSelection q k) app
      end
  | None => app
  end.

Definition calls (ops : list SessionOp) (app : App) : App :=
  foldl (λ a op, call op a) app ops.

End Methods.

(** ** Notions used to state the properties *)

Section Notions.

Variable data : Database.

(** The id chain of a subject, and of a lesson, in the content model. *)
Definition lookup_subject (c s : string) : option Subject :=
  course ← courses data !! c;
  find_subject s (subjects course).

Definition lookup_lesson (c s l : string) : option Lesson :=
  subject ← lookup_subject c s;
  find_lesson l (lessons subject).

(** The page of the first question of a lesson. *)
Definition first_question (c s l : string) (les : Lesson) (question : Question)
    : Screen :=
  QuestionPage (newQuiz c s l les)
    {| optionCount := length (options question); optionsDisabled := false;
       prevDisabled := true; explanationShown := false |}.

(** The page a view state stands for, when its ids resolve (and, for a
    quiz, the lesson has a first question). *)
Definition rendered (state : ViewState) : option Screen :=
  match state with
  | VCourses => Some CourseGrid
  | VSubjects c => _ ← courses data !! c; Some (SubjectGrid c)
  | VLessons c s => _ ← lookup_subject c s; Some (LessonGrid c s)
  | VLesson c s l => _ ← lookup_lesson c s l; Some (LessonPage c s l)
  | VQuiz c s l =>
      les ← lookup_lesson c s l;
      question ← head (quiz les);
      Some (first_question c s l les question)
  end.

(** The state a stack stands at: its top, or the root for no history. *)
Definition current (stack : list ViewState) : ViewState :=
  default VCourses (last stack).

(** Entries that [handleBack] can render again. *)
Definition entry_ok (state : ViewState) : Prop :=
  state ≠ VCourses ∧ is_Some (rendered state).

Definition quiz_state (q : QuizClosure) : ViewState :=
  VQuiz (courseId q) (subjectId q) (lessonId q).

Definition lesson_state (q : QuizClosure) : ViewState :=
  VLesson (courseId q) (subjectId q) (lessonId q).

(** The closure after [userAnswers[currentQuestionIndex] = k]. *)
Definition answered (q : QuizClosure) (k : Z) : QuizClosure :=
  with_answers q
    (Js.store (userAnswers q) (currentQuestionIndex q) (Js.Number k)).

(** The page is bound to a closure of lesson [les] whose index is inside
    the quiz. *)
Definition session_in_range (les : Lesson) (app : App) : Prop :=
  ∃ q, session (view app) = Some q ∧ lesson q = les ∧
       (currentQuestionIndex q < length (quizData q))%nat.

(** The closure of a running quiz: its lesson is the one its ids name, the
    index is inside the quiz, one slot per question. *)
Definition closure_ok (q : QuizClosure) : Prop :=
  lookup_lesson (courseId q) (subjectId q) (lessonId q) = Some (lesson q) ∧
  (currentQuestionIndex q < length (quizData q))%nat ∧
  length (userAnswers q) = length (quizData q).

(** Under a quiz entry lies the lesson entry it was opened from, or another
    entry of the same quiz, which then has a second question. *)
Definition quiz_below (stack : list ViewState) : Prop :=
  ∀ i c s l, stack !! i = Some (VQuiz c s l) →
    ∃ j, i = S j ∧
      (stack !! j = Some (VLesson c s l) ∨
       (stack !! j = Some (VQuiz c s l) ∧
        ∃ les, lookup_lesson c s l = Some les ∧ (2 ≤ length (quiz les))%nat)).

(** How the stack relates to the page on show. *)
Definition page_ok (stack : list ViewState) (v : Screen) : Prop :=
  match v with
  | Blank => False
  | CourseGrid => stack = []
  | SubjectGrid c => last stack = Some (VSubjects c)
  | LessonGrid c s => last stack = Some (VLessons c s)
  | LessonPage c s l => last stack = Some (VLesson c s l)
  | QuestionPage q _ =>
      closure_ok q ∧
      ∃ pre, stack = pre ++ replicate (S (currentQuestionIndex q)) (quiz_state q)
  | ResultsPage q _ =>
      closure_ok q ∧
      ∃ pre a, stack = pre ++ [a; quiz_state q; a]
  end.

(** The invariant of the reachable states. *)
Definition Inv (app : App) : Prop :=
  Forall entry_ok (navigationStack app) ∧
  quiz_below (navigationStack app) ∧
  page_ok (navigationStack app) (view app).

End Notions.

(** ** Scoring and review as the specification words them *)

Module Spec.

(** Questions with their position in the lesson, counted from [i]. *)
Fixpoint indexed_from (i : nat) (questions : list Question)
    : list (nat * Question) :=
  match questions with
  | [] => []
  | question :: rest => (i, question) :: indexed_from (S i) rest
  end.

Definition indexed (questions : list Question) : list (nat * Question) :=
  indexed_from 0 questions.

(** The recorded answer of a question equals its [answerIndex]. *)
Definition answered_correctly (answers : list Js.value) (iq : nat * Question)
    : Prop :=
  answers !! iq.1 = Some (Js.Number (answerIndex iq.2)).

Global Instance answered_correctly_dec answers iq
  : Decision (answered_correctly answers iq).
Proof. unfold answered_correctly. apply _. Defined.

(** [score().correctCount]: the number of indices whose recorded answer is
    the correct one. *)
Definition correctCount (questions : list Question) (answers : list Js.value)
    : nat :=
  length (filter (answered_correctly answers) (indexed questions)).

Definition option_text (question : Question) (k : Z) : string :=
  nth (Z.to_nat k) (options question) "".

(** The review record of a question: the chosen option's text, or
    [Not Answered]. *)
Definition record (answers : list Js.value) (iq : nat * Question)
    : IncorrectQuestion :=
  {| shownStem := stem iq.2;
     yourAnswer :=
       match answers !! iq.1 with
       | Some (Js.Number k) => option_text iq.2 k
       | _ => "Not Answered"
       end;
     correctAnswer := option_text iq.2 (answerIndex iq.2) |}.

(** [review()]: one record per question not answered correctly, in the
    order of the lesson. *)
Definition review (questions : list Question) (answers : list Js.value)
    : list IncorrectQuestion :=
  record answers <$>
    filter (λ iq, ¬ answered_correctly answers iq) (indexed questions).



(** A slot holds [null] or the index of one of the question's options. *)
Definition valid_slot (a : Js.value) (question : Question) : Prop :=
  a = Js.Null ∨
  ∃ k, a = Js.Number k ∧ 0 <= k < Z.of_nat (length (options question)).

(** [answerIndex] names one of the options (data model invariant). *)
Definition valid_question (question : Question) : Prop :=
  0 <= answerIndex question < Z.of_nat (length (options question)).

End Spec.

(** ** A sample database *)

Module Sample.

Definition question (s : string) (correct : Z) : Question :=
  {| stem := s; options := ["a"; "b"; "c"]; answerIndex := correct;
     explanation := "because" |}.

(** Three questions with correct indices 1, 0, 2. *)
Definition anatomy : Lesson :=
  {| lesson_id := "anatomy"; lesson_title := "Anatomy";
     lesson_shortDescription := ""; summary := [("Overview", "text")];
     quiz := [question "q1" 1; question "q2" 0; question "q3" 2] |}.

(** A single question. *)
Definition cycle : Lesson :=
  {| lesson_id := "cycle"; lesson_title := "Cycle";
     lesson_shortDescription := ""; summary := [];
     quiz := [question "only" 0] |}.

Definition basics : Subject :=
  {| subject_id := "basics"; subject_title := "Basics";
     subject_shortDescription := ""; lessons := [anatomy; cycle] |}.

Definition gynecology : Course :=
  {| course_title := "Gynecology"; color := "#c2185b"; subjects := [basics] |}.

Definition db : Database :=
  {| courses := {[ "gyn" := gynecology ]} |}.

Definition closure_of (l : Lesson) (i : nat) (answers : list Js.value)
    : QuizClosure :=
  {| courseId := "gyn"; subjectId := "basics"; lessonId := lesson_id l;
     lesson := l; currentQuestionIndex := i; userAnswers := answers |}.



(** The path from the course list to the first question of a lesson. *)
Definition open_quiz (lessonId : string) : list Event :=
  [ClickCard "gyn"; ClickCard "basics"; ClickCard lessonId; ClickTest].

End Sample.

(** ** More of the page and of the history *)

Section Page.

(** The label of [#next-btn] in the template of [renderCurrentQuestion]:
    [currentQuestionIndex === quizData.length - 1 ? 'Finish Quiz' : 'Next']. *)
Definition nextButtonLabel (q : QuizClosure) : string :=
  if decide (Z.of_nat (currentQuestionIndex q) =
             Z.of_nat (length (quizData q)) - 1)
  then "Finish Quiz" else "Next".

(** The controls of a question page as [renderCurrentQuestion] writes
    them for [question]. *)
Definition question_dom (q : QuizClosure) (question : Question) : QuestionDom :=
  {| optionCount := length (options question);
     optionsDisabled := false;
     prevDisabled := bool_decide (currentQuestionIndex q = 0%nat);
     explanationShown := false |}.

(** What the results page shows under "Review Your Answers":
    [resultsHtml || '<p>Congratulations, all answers are correct!</p>'];
    the string is empty when no block was appended. *)
Inductive ReviewSection :=
| Congratulations
| Mistakes (blocks : list IncorrectQuestion).

Definition reviewSection (r : Results) : ReviewSection :=
  match resultsHtml r with
  | [] => Congratulations
  | blocks => Mistakes blocks
  end.

(** The state the listener of a card renders: [renderSubjectList(id)] on
    the course grid, [renderLessonList(courseId, id)] on a subject grid,
    [renderLessonDetail(courseId, subjectId, id)] on a lesson grid. *)
Definition card_target (v : Screen) (i : string) : option ViewState :=
  match v with
  | CourseGrid => Some (VSubjects i)
  | SubjectGrid c => Some (VLessons c i)
  | LessonGrid c s => Some (VLesson c s i)
  | _ => None
  end.

(** The controls of a question page agree with its closure. *)
Definition dom_ok (q : QuizClosure) (d : QuestionDom) : Prop :=
  (∃ question,
     quizData q !! currentQuestionIndex q = Some question ∧
     optionCount d = length (options question)) ∧
  prevDisabled d = bool_decide (currentQuestionIndex q = 0%nat) ∧
  (explanationShown d = true → optionsDisabled d = true).

Definition page_dom_ok (app : App) : Prop :=
  ∀ q d, view app = QuestionPage q d → dom_ok q d.

(** [above] may lie directly on [below] in the history. *)
Definition parent_ok (below above : ViewState) : Prop :=
  match above with
  | VCourses | VSubjects _ => False
  | VLessons c s => below = VSubjects c
  | VLesson c s l => below = VLessons c s ∨ below = VQuiz c s l
  | VQuiz c s l => below = VLesson c s l ∨ below = VQuiz c s l
  end.

(** [x] may be pushed on [stack]. *)
Definition follows (stack : list ViewState) (x : ViewState) : Prop :=
  match last stack with
  | None => ∃ c, x = VSubjects c
  | Some t => parent_ok t x
  end.

(** The history is a chain: a subject list at the bottom, and every entry
    on an entry it can be reached from. *)
Definition chain (stack : list ViewState) : Prop :=
  (∀ s, stack !! 0%nat = Some s → ∃ c, s = VSubjects c) ∧
  (∀ i a b, stack !! i = Some a → stack !! S i = Some b → parent_ok a b).

(** The session is bound to a closure of lesson [les] with answers
    [answers] whose index is inside the quiz. *)
Definition session_keeps (les : Lesson) (answers : list Js.value) (app : App)
    : Prop :=
  ∃ q, session (view app) = Some q ∧ lesson q = les ∧
       userAnswers q = answers ∧
       (currentQuestionIndex q < length (quizData q))%nat.

Definition is_navigation (op : SessionOp) : Prop :=
  match op with
  | OpSelect _ => False
  | _ => True
  end.





End Page.

(** ** A database with a defect *)

Module Defective.

(** A question whose [answerIndex] names no option. *)
Definition broken : Lesson :=
  {| lesson_id := "broken"; lesson_title := "Broken";
     lesson_shortDescription := ""; summary := [];
     quiz := [ {| stem := "which"; options := ["a"; "b"; "c"];
                  answerIndex := 5; explanation := "none" |} ] |}.

(** A lesson without questions. *)
Definition empty : Lesson :=
  {| lesson_id := "empty"; lesson_title := "Empty";
     lesson_shortDescription := ""; summary := []; quiz := [] |}.

Definition db : Database :=
  {| courses :=
       {[ "obs" :=
            {| course_title := "Obstetrics"; color := "#00695c";
               subjects :=
                 [ {| subject_id := "labour"; subject_title := "Labour";
                      subject_shortDescription := "";
                      lessons := [broken; empty] |} ] |} ]} |}.

Definition open_lesson (lessonId : string) : list Event :=
  [ClickCard "obs"; ClickCard "labour"; ClickCard lessonId].

End Defective.

(** * Properties *)

(** ** The loop of [renderResults] *)

Section Scoring.

Implicit Types (q : QuizClosure) (s : ResultsScope) (answers : list Js.value).

Lemma strict_eq_num_get answers i k :
  Js.strict_eq_num (Js.get answers i) k = true ↔
  answers !! i = Some (Js.Number k).
Proof.
  unfold Js.get, Js.strict_eq_num.
  destruct (answers !! i) as [[| |z]|]; simpl;
    try rewrite bool_decide_eq_true; split; intros H;
    by simplify_eq.
Qed.

(** What one pass of the callback over the rest of the questions does to
    the variables in scope. *)
Lemma forEach_from_tally i questions s :
  let answers := userAnswers (closure s) in
  forEach_from tally i questions s =
  {| closure := closure s;
     counted := (counted s + length (filter (Spec.answered_correctly answers)
                                      (Spec.indexed_from i questions)))%nat;
     html := html s ++
       ((λ iq, incorrect_question (Js.get answers iq.1) iq.2) <$>
        filter (λ iq, ¬ Spec.answered_correctly answers iq)
               (Spec.indexed_from i questions)) |}.
Proof.
  revert i s. induction questions as [|question rest IH]; intros i s answers.
  - simpl. rewrite Nat.add_0_r, app_nil_r. by destruct s.
  - cbn [forEach_from Spec.indexed_from]. rewrite IH.
    replace (i + 1)%nat with (S i) by lia.
    unfold tally. subst answers.
    destruct (Js.strict_eq_num _ _) eqn:E; cbn [closure counted html].
    + apply strict_eq_num_get in E.
      rewrite filter_cons_True by done.
      rewrite filter_cons_False by (intros H; by apply H).
      cbn [length]. f_equal. lia.
    + assert (¬ Spec.answered_correctly (userAnswers (closure s)) (i, question))
        as Hn.
      { intros H. apply strict_eq_num_get in H. simpl in H. congruence. }
      rewrite filter_cons_False by done.
      rewrite filter_cons_True by done.
      rewrite fmap_cons, <- app_assoc. done.
Qed.

Lemma results_loop_eq q :
  results_loop q =
  {| closure := q;
     counted := Spec.correctCount (quizData q) (userAnswers q);
     html := (λ iq, incorrect_question (Js.get (userAnswers q) iq.1) iq.2) <$>
             filter (λ iq, ¬ Spec.answered_correctly (userAnswers q) iq)
                    (Spec.indexed (quizData q)) |}.
Proof.
  unfold results_loop, forEach. rewrite forEach_from_tally. done.
Qed.

Lemma renderResults_eq q app :
  renderResults q app =
  (Normal q,
   {| navigationStack :=
        navigationStack app ++
        option_list (Js.index (navigationStack app)
                       (Z.of_nat (length (navigationStack app)) - 2));
      view := ResultsPage q (results_of (results_loop q)) |}).
Proof.
  unfold renderResults. rewrite results_loop_eq. cbn [closure].
  unfold mbind, M_bind, getStack, updateView, setInnerHTML, mbind, M_bind.
  cbn. destruct (Js.index _ _); cbn; [done|]. by rewrite app_nil_r.
Qed.

(** The percentage is computed on doubles: the quotient is rounded before
    the product, so a score on a tie such as 23 of 40 (57.5 exactly) shows
    57, the product being just below the tie. *)
Lemma percentage_examples :
  percentage 2 3 = Js.Int 67 ∧ percentage 1 8 = Js.Int 13 ∧
  percentage 23 40 = Js.Int 57 ∧ percentage 3 3 = Js.Int 100 ∧
  percentage 0 0 = Js.NaN.
Proof. vm_compute. done. Qed.






End Scoring.

(** ** What each method does to the [app] object *)

Section Steps.

Variable data : Database.

Implicit Types (q : QuizClosure) (app : App) (stack : list ViewState).

Ltac step :=
  unfold mbind, M_bind, mret, M_ret, exec, throw, getStack, getView,
    setInnerHTML, push, pop, prop; cbn.

Lemma renderCourseList_eq app :
  renderCourseList app =
  (Normal tt, {| navigationStack := navigationStack app; view := CourseGrid |}).
Proof. done. Qed.

Lemma renderSubjectList_eq c app :
  renderSubjectList data c app =
  match courses data !! c with
  | Some _ =>
      (Normal tt, {| navigationStack := navigationStack app ++ [VSubjects c];
                     view := SubjectGrid c |})
  | None => (TypeError, app)
  end.
Proof. unfold renderSubjectList. step. by destruct (courses data !! c). Qed.

Lemma renderLessonList_eq c s app :
  renderLessonList data c s app =
  match lookup_subject data c s with
  | Some _ =>
      (Normal tt, {| navigationStack := navigationStack app ++ [VLessons c s];
                     view := LessonGrid c s |})
  | None => (TypeError, app)
  end.
Proof.
  unfold renderLessonList, lookup_subject. step.
  destruct (courses data !! c) as [course|]; cbn; [|done].
  by destruct (find_subject s (subjects course)).
Qed.

Lemma renderLessonDetail_eq c s l app :
  renderLessonDetail data c s l app =
  match lookup_lesson data c s l with
  | Some _ =>
      (Normal tt, {| navigationStack := navigationStack app ++ [VLesson c s l];
                     view := LessonPage c s l |})
  | None => (TypeError, app)
  end.
Proof.
  unfold renderLessonDetail, lookup_lesson, lookup_subject. step.
  destruct (courses data !! c) as [course|]; cbn; [|done].
  destruct (find_subject s (subjects course)) as [subject|]; cbn; [|done].
  by destruct (find_lesson l (lessons subject)).
Qed.

Lemma renderCurrentQuestion_eq q app :
  renderCurrentQuestion q app =
  match quizData q !! currentQuestionIndex q with
  | Some question =>
      (Normal tt,
       {| navigationStack := navigationStack app ++ [quiz_state q];
          view := QuestionPage q
            {| optionCount := length (options question);
               optionsDisabled := false;
               prevDisabled := bool_decide (currentQuestionIndex q = 0%nat);
               explanationShown := false |} |})
  | None => (TypeError, app)
  end.
Proof.
  unfold renderCurrentQuestion. step.
  by destruct (quizData q !! currentQuestionIndex q).
Qed.

Lemma renderQuiz_eq c s l app :
  renderQuiz data c s l app =
  match lookup_lesson data c s l with
  | Some les => renderCurrentQuestion (newQuiz c s l les) app
  | None => (TypeError, app)
  end.
Proof.
  unfold renderQuiz, lookup_lesson, lookup_subject. step.
  destruct (courses data !! c) as [course|]; cbn; [|done].
  destruct (find_subject s (subjects course)) as [subject|]; cbn; [|done].
  by destruct (find_lesson l (lessons subject)).
Qed.

(** [renderView] renders the page a state stands for and pushes the state
    again, or fails before changing anything. *)
Lemma renderView_eq state app :
  renderView data state app =
  match rendered data state with
  | Some page =>
      (Normal tt,
       {| navigationStack :=
            navigationStack app ++
            (if decide (state = VCourses) then [] else [state]);
          view := page |})
  | None => (TypeError, app)
  end.
Proof.
  destruct state as [|c|c s|c s l|c s l]; cbn [renderView rendered].
  - rewrite renderCourseList_eq. cbn. by rewrite app_nil_r.
  - rewrite renderSubjectList_eq. by destruct (courses data !! c).
  - rewrite renderLessonList_eq. by destruct (lookup_subject data c s).
  - rewrite renderLessonDetail_eq. by destruct (lookup_lesson data c s l).
  - rewrite renderQuiz_eq.
    destruct (lookup_lesson data c s l) as [les|]; cbn; [|done].
    rewrite renderCurrentQuestion_eq. unfold quizData. cbn.
    rewrite <- head_lookup. by destruct (head (quiz les)).
Qed.

(** [handleBack] leaves the stack one entry shorter and shows the page of
    its new top, or the course list when nothing is left. *)
Lemma handleBack_eq stack v :
  Forall (entry_ok data) (removelast stack) →
  ∃ page,
    rendered data (current (removelast stack)) = Some page ∧
    handleBack data {| navigationStack := stack; view := v |} =
    (Normal tt, {| navigationStack := removelast stack; view := page |}).
Proof.
  unfold handleBack.
  unfold mbind, M_bind, pop, getStack. cbn [navigationStack view].
  generalize (removelast stack). clear stack.
  intros stack Hok. destruct stack as [|t rest _] using rev_ind.
  - exists CourseGrid. done.
  - rewrite Forall_app, Forall_singleton in Hok.
    destruct Hok as [_ [Hne [page Hpage]]].
    exists page. unfold current. rewrite last_snoc. split; [done|].
    rewrite decide_True by (rewrite length_app; cbn; lia).
    cbn [navigationStack view]. rewrite last_snoc, removelast_last.
    unfold prop, mret, M_ret, id.
    rewrite renderView_eq, Hpage. cbn. by rewrite decide_False.
Qed.

Lemma handleNext_advance q app :
  (currentQuestionIndex q + 1 < length (quizData q))%nat →
  ∃ d,
    handleNext q app =
    (Normal (with_index q (currentQuestionIndex q + 1)),
     {| navigationStack := navigationStack app ++ [quiz_state q];
        view := QuestionPage (with_index q (currentQuestionIndex q + 1)) d |}).
Proof.
  intros Hlt. unfold handleNext. rewrite decide_True by lia.
  destruct (lookup_lt_is_Some_2 (quizData q) (currentQuestionIndex q + 1) Hlt)
    as [question Hq].
  eexists. unfold assign. step.
  destruct app as [stack []]; cbn;
    rewrite renderCurrentQuestion_eq; unfold quizData in *; cbn;
    rewrite Hq; reflexivity.
Qed.

Lemma handleNext_finish q app :
  ¬ (currentQuestionIndex q + 1 < length (quizData q))%nat →
  handleNext q app = renderResults q app.
Proof. intros Hge. unfold handleNext. by rewrite decide_False by lia. Qed.

Lemma handlePrev_back q app :
  (0 < currentQuestionIndex q)%nat →
  (currentQuestionIndex q ≤ length (quizData q))%nat →
  ∃ d,
    handlePrev q app =
    (Normal (with_index q (currentQuestionIndex q - 1)),
     {| navigationStack := navigationStack app ++ [quiz_state q];
        view := QuestionPage (with_index q (currentQuestionIndex q - 1)) d |}).
Proof.
  intros Hpos Hle. unfold handlePrev. rewrite decide_True by lia.
  assert (currentQuestionIndex q - 1 < length (quizData q))%nat as Hlt by lia.
  destruct (lookup_lt_is_Some_2 _ _ Hlt) as [question Hq].
  eexists. unfold assign. step.
  destruct app as [stack []]; cbn;
    rewrite renderCurrentQuestion_eq; unfold quizData in *; cbn;
    rewrite Hq; reflexivity.
Qed.

Lemma handlePrev_first q app :
  currentQuestionIndex q = 0%nat → handlePrev q app = (Normal q, app).
Proof. intros H0. unfold handlePrev. by rewrite decide_False by lia. Qed.

(** On a question page the handler stores the answer in the closure of
    the page and disables the option buttons, however it ends. *)
Lemma handleAnswerSelection_question q k stack q0 d :
  ∃ c d',
    handleAnswerSelection q k
      {| navigationStack := stack; view := QuestionPage q0 d |} =
    (c, {| navigationStack := stack; view := QuestionPage (answered q k) d' |})
    ∧ optionsDisabled d' = true.
Proof.
  unfold handleAnswerSelection, assign, optionButtons, disableOptions,
    showExplanation, markOption. fold (answered q k). step.
  destruct (quizData (answered q k) !! _) as [question|]; cbn; [|eauto].
  repeat (case_bool_decide || case_decide || cbn); eauto.
Qed.

(** On a results page there are no option buttons and no explanation
    element: the answer is stored and the handler throws. *)
Lemma handleAnswerSelection_results q k stack q0 r :
  handleAnswerSelection q k
    {| navigationStack := stack; view := ResultsPage q0 r |} =
  (TypeError,
   {| navigationStack := stack; view := ResultsPage (answered q k) r |}).
Proof.
  unfold handleAnswerSelection, assign, optionButtons, disableOptions,
    showExplanation, markOption. fold (answered q k). step.
  destruct (quizData (answered q k) !! _) as [question|]; cbn; [|done].
  repeat (case_bool_decide || case_decide || cbn); done.
Qed.

End Steps.

(** ** The invariant of the reachable states *)

Section Invariant.

Variable data : Database.

Variable dataset : string → string.

Implicit Types (q : QuizClosure) (app : App) (stack : list ViewState).

Lemma find_subject_is_Some i ss :
  i ∈ subject_id <$> ss → is_Some (find_subject i ss).
Proof.
  intros Hin. destruct (find_subject i ss) eqn:E; [eauto|].
  apply list_elem_of_fmap in Hin as (x & -> & Hx).
  apply list_elem_of_In in Hx. unfold find_subject in E.
  pose proof (find_none _ _ E x Hx) as Hf. cbn in Hf.
  by rewrite bool_decide_eq_false in Hf.
Qed.

Lemma find_lesson_is_Some i ls :
  i ∈ lesson_id <$> ls → is_Some (find_lesson i ls).
Proof.
  intros Hin. destruct (find_lesson i ls) eqn:E; [eauto|].
  apply list_elem_of_fmap in Hin as (x & -> & Hx).
  apply list_elem_of_In in Hx. unfold find_lesson in E.
  pose proof (find_none _ _ E x Hx) as Hf. cbn in Hf.
  by rewrite bool_decide_eq_false in Hf.
Qed.

Lemma Forall_removelast {A} (P : A → Prop) (l : list A) :
  Forall P l → Forall P (removelast l).
Proof.
  destruct l as [|x l _] using rev_ind; [done|].
  rewrite removelast_last, Forall_app. tauto.
Qed.

Lemma quiz_below_prefix stack rest :
  quiz_below data (stack ++ rest) → quiz_below data stack.
Proof.
  intros H i c s l Hi. pose proof (lookup_lt_Some _ _ _ Hi) as Hlt.
  destruct (H i c s l) as (j & -> & Hj); [by rewrite lookup_app_l|].
  exists j. split; [done|]. by rewrite lookup_app_l in Hj by lia.
Qed.

Lemma quiz_below_removelast stack :
  quiz_below data stack → quiz_below data (removelast stack).
Proof.
  destruct stack as [|x l _] using rev_ind; [done|].
  rewrite removelast_last. apply quiz_below_prefix.
Qed.

(** A push keeps [quiz_below] when a pushed quiz entry lands on the lesson
    entry or on an entry of the same quiz with a second question. *)
Lemma quiz_below_snoc stack x :
  quiz_below data stack →
  (∀ c s l, x = VQuiz c s l →
     ∃ t, last stack = Some t ∧
       (t = VLesson c s l ∨
        (t = VQuiz c s l ∧
         ∃ les, lookup_lesson data c s l = Some les ∧
                (2 ≤ length (quiz les))%nat))) →
  quiz_below data (stack ++ [x]).
Proof.
  intros H Hx i c s l Hi.
  apply lookup_snoc_Some in Hi as [[Hlt Hi]|[-> ->]].
  - destruct (H i c s l Hi) as (j & -> & Hj). exists j. split; [done|].
    by rewrite lookup_app_l by lia.
  - destruct (Hx c s l eq_refl) as (t & Hlast & Ht).
    apply last_Some in Hlast as [pre ->]. exists (length pre).
    split; [rewrite length_app; cbn; lia|].
    rewrite <- app_assoc. cbn. rewrite list_lookup_middle by done.
    destruct Ht as [->|[-> ?]]; eauto.
Qed.

Lemma quiz_below_top stack c s l :
  quiz_below data (stack ++ [VQuiz c s l]) →
  ∃ pre t, stack = pre ++ [t] ∧
    (t = VLesson c s l ∨
     (t = VQuiz c s l ∧
      ∃ les, lookup_lesson data c s l = Some les ∧
             (2 ≤ length (quiz les))%nat)).
Proof.
  intros H. destruct (H (length stack) c s l) as (j & Hj & Ht).
  { by rewrite list_lookup_middle. }
  destruct stack as [|t pre _] using rev_ind; [done|].
  rewrite length_app in Hj. cbn in Hj. assert (j = length pre) as -> by lia.
  rewrite <- app_assoc in Ht. cbn in Ht.
  rewrite !list_lookup_middle in Ht by done.
  exists pre, t. split; [done|].
  destruct Ht as [[= ->]|[[= ->] ?]]; eauto.
Qed.

Lemma closure_ok_with_index q i :
  closure_ok data q → (i < length (quizData q))%nat →
  closure_ok data (with_index q i).
Proof. intros (Hl & _ & Ha) Hi. done. Qed.

Lemma closure_ok_answered q k :
  closure_ok data q → closure_ok data (answered q k).
Proof.
  intros (Hl & Hi & Ha). split_and!; [done..|]. cbn. unfold Js.store.
  rewrite decide_True by lia. by rewrite length_insert.
Qed.

Lemma closure_ok_rendered q :
  closure_ok data q →
  ∃ question,
    head (quizData q) = Some question ∧
    rendered data (quiz_state q) =
    Some (first_question (courseId q) (subjectId q) (lessonId q) (lesson q)
            question).
Proof.
  intros (Hl & Hi & _). unfold quizData in *. cbn. rewrite Hl. cbn.
  destruct (quiz (lesson q)) as [|question rest]; cbn in *; [lia|]. eauto.
Qed.

Lemma entry_ok_quiz_state q : closure_ok data q → entry_ok data (quiz_state q).
Proof.
  intros Hq. split; [done|].
  destruct (closure_ok_rendered q Hq) as (question & _ & ->). eauto.
Qed.

Lemma page_ok_rendered stack t page :
  rendered data t = Some page → t ≠ VCourses →
  page_ok data (stack ++ [t]) page.
Proof.
  intros Hpage Hne.
  destruct t as [|c|c s|c s l|c s l]; cbn in Hpage; [done|..].
  - destruct (courses data !! c); simplify_eq/=. apply last_snoc.
  - destruct (lookup_subject data c s); simplify_eq/=. apply last_snoc.
  - destruct (lookup_lesson data c s l); simplify_eq/=. apply last_snoc.
  - destruct (lookup_lesson data c s l) as [les|] eqn:Hl; simplify_eq/=.
    destruct (quiz les) as [|question rest] eqn:Hq; simplify_eq/=.
    split.
    + split_and!; cbn; [done| |].
      * unfold quizData. cbn. rewrite Hq. cbn. lia.
      * unfold quizData, Js.filled_null. cbn. by rewrite length_replicate.
    + by exists stack.
Qed.

Lemma Inv_push stack t page :
  Forall (entry_ok data) stack →
  quiz_below data (stack ++ [t]) →
  rendered data t = Some page → t ≠ VCourses →
  Inv data {| navigationStack := stack ++ [t]; view := page |}.
Proof.
  intros Hok Hbelow Hpage Hne. split_and!; cbn.
  - rewrite Forall_app, Forall_singleton. split; [done|]. split; eauto.
  - done.
  - by apply page_ok_rendered.
Qed.

Lemma Inv_renderView stack v t :
  Inv data {| navigationStack := stack; view := v |} →
  t ≠ VCourses →
  (is_Some (rendered data t) → quiz_below data (stack ++ [t])) →
  Inv data (exec (renderView data t) {| navigationStack := stack; view := v |}).
Proof.
  intros HI Hne Hbelow. unfold exec. rewrite renderView_eq.
  destruct (rendered data t) as [page|] eqn:Hpage; cbn; [|done].
  rewrite decide_False by done. destruct HI as (Hok & _ & _).
  apply Inv_push; eauto.
Qed.

Lemma Inv_handleBack stack v :
  Forall (entry_ok data) stack → quiz_below data stack →
  Inv data (exec (handleBack data) {| navigationStack := stack; view := v |}).
Proof.
  intros Hok Hbelow.
  apply Forall_removelast in Hok. apply quiz_below_removelast in Hbelow.
  destruct (handleBack_eq data stack v Hok) as (page & Hpage & Heq).
  unfold exec. rewrite Heq. cbn. split_and!; cbn; [done..|].
  revert Hok Hpage. generalize (removelast stack). clear.
  intros stack Hok Hpage. destruct stack as [|t pre _] using rev_ind.
  - cbn in Hpage. by simplify_eq.
  - unfold current in Hpage. rewrite last_snoc in Hpage. cbn in Hpage.
    rewrite Forall_app, Forall_singleton in Hok.
    destruct Hok as [_ [Hne _]]. by apply page_ok_rendered.
Qed.

Lemma index_below_top {A} (pre : list A) a x :
  Js.index (pre ++ [a; x]) (Z.of_nat (length (pre ++ [a; x])) - 2) = Some a.
Proof.
  unfold Js.index. rewrite length_app. cbn [length].
  rewrite decide_True by lia.
  replace (Z.to_nat (Z.of_nat (length pre + 2) - 2)) with (length pre) by lia.
  by rewrite list_lookup_middle.
Qed.

(** On a question page the entry below the top is the lesson entry only
    at the first question, and otherwise an entry of the same quiz. *)
Lemma question_page_below stack q d :
  Inv data {| navigationStack := stack; view := QuestionPage q d |} →
  ∃ pre a,
    stack = pre ++ [a; quiz_state q] ∧
    ((a = lesson_state q ∧ currentQuestionIndex q = 0%nat) ∨
     (a = quiz_state q ∧ (2 ≤ length (quizData q))%nat)).
Proof.
  intros (_ & Hbelow & Hq & pre0 & Hstack).
  cbn [navigationStack view] in *.
  rewrite replicate_S_end, app_assoc in Hstack. subst stack.
  destruct (quiz_below_top _ _ _ _ Hbelow) as (pre & t & Hpre & Ht).
  exists pre, t. rewrite Hpre, <- app_assoc. split; [done|].
  destruct Ht as [->|[-> (les & Hles & Hlen)]].
  - left. split; [done|].
    destruct (currentQuestionIndex q) as [|i]; [done|].
    rewrite replicate_S_end, app_assoc in Hpre.
    by apply app_inj_tail in Hpre as [_ ?].
  - right. split; [done|]. destruct Hq as (Hl & _ & _).
    unfold quizData. by simplify_eq.
Qed.

Lemma Inv_renderResults stack q d :
  Inv data {| navigationStack := stack; view := QuestionPage q d |} →
  Inv data (exec (renderResults q)
              {| navigationStack := stack; view := QuestionPage q d |}).
Proof.
  intros HI. destruct (question_page_below _ _ _ HI) as (pre & a & -> & Ha).
  destruct HI as (Hok & Hbelow & Hq & _). cbn in *.
  unfold exec. rewrite renderResults_eq. cbn [navigationStack snd].
  rewrite index_below_top. cbn [option_list]. split_and!; cbn.
  - rewrite Forall_app, Forall_singleton. split; [done|].
    rewrite Forall_app, Forall_cons in Hok. tauto.
  - apply quiz_below_snoc; [done|]. intros c s l ->.
    rewrite last_app. cbn. eexists. split; [done|].
    destruct Ha as [[Ha _]|[Ha Hlen]]; [done|].
    right. split; [done|]. injection Ha as -> -> ->.
    destruct Hq as (Hl & _ & _). eauto.
  - split; [done|]. exists pre, a. by rewrite <- app_assoc.
Qed.

Lemma Inv_handleNext stack q d :
  Inv data {| navigationStack := stack; view := QuestionPage q d |} →
  Inv data (exec (handleNext q)
              {| navigationStack := stack; view := QuestionPage q d |}).
Proof.
  intros HI.
  destruct (decide (currentQuestionIndex q + 1 < length (quizData q))%nat)
    as [Hlt|Hge].
  - destruct (handleNext_advance q
                {| navigationStack := stack; view := QuestionPage q d |} Hlt)
      as [d' Heq].
    unfold exec. rewrite Heq. cbn [snd].
    destruct HI as (Hok & Hbelow & Hq & pre & Hstack).
    cbn [navigationStack view] in *. split_and!; cbn [navigationStack view].
    + rewrite Forall_app, Forall_singleton. split; [done|].
      by apply entry_ok_quiz_state.
    + apply quiz_below_snoc; [done|]. intros c s l Hx.
      exists (quiz_state q). split.
      { rewrite Hstack, replicate_S_end, app_assoc. apply last_snoc. }
      right. split; [done|]. injection Hx as <- <- <-.
      destruct Hq as (Hl & _ & _). exists (lesson q).
      split; [done|]. unfold quizData in Hlt. lia.
    + split; [by apply closure_ok_with_index|].
      exists pre. rewrite Hstack.
      change (quiz_state (with_index q _)) with (quiz_state q).
      cbn [currentQuestionIndex with_index].
      replace (S (currentQuestionIndex q + 1))
        with (S (S (currentQuestionIndex q))) by lia.
      by rewrite (replicate_S_end (S _)), app_assoc.
  - unfold exec. rewrite handleNext_finish by done.
    by apply Inv_renderResults.
Qed.

Lemma Inv_handlePrev stack q d :
  Inv data {| navigationStack := stack; view := QuestionPage q d |} →
  Inv data (exec (handlePrev q)
              {| navigationStack := stack; view := QuestionPage q d |}).
Proof.
  intros HI.
  destruct (decide (currentQuestionIndex q = 0%nat)) as [H0|Hpos].
  { unfold exec. by rewrite handlePrev_first. }
  destruct HI as (Hok & Hbelow & Hq & pre & Hstack).
  cbn [navigationStack view] in *. pose proof Hq as (Hl & Hi & Ha).
  destruct (handlePrev_back q
              {| navigationStack := stack; view := QuestionPage q d |})
    as [d' Heq]; [lia..|].
  unfold exec. rewrite Heq. cbn [snd].
  split_and!; cbn [navigationStack view].
  - rewrite Forall_app, Forall_singleton. split; [done|].
    by apply entry_ok_quiz_state.
  - apply quiz_below_snoc; [done|]. intros c s l Hx.
    exists (quiz_state q). split.
    { rewrite Hstack, replicate_S_end, app_assoc. apply last_snoc. }
    right. split; [done|]. injection Hx as <- <- <-.
    exists (lesson q). split; [done|]. unfold quizData in Hi. lia.
  - split; [apply closure_ok_with_index; [done|lia]|].
    exists (pre ++ [quiz_state q; quiz_state q]). rewrite Hstack.
    change (quiz_state (with_index q _)) with (quiz_state q).
    cbn [currentQuestionIndex with_index].
    replace (S (currentQuestionIndex q))
      with (2 + (currentQuestionIndex q - 1))%nat at 1 by lia.
    replace (S (currentQuestionIndex q - 1))
      with (currentQuestionIndex q - 1 + 1)%nat by lia.
    rewrite !replicate_add, <- !app_assoc. done.
Qed.

Lemma Inv_handleAnswerSelection stack q d k :
  Inv data {| navigationStack := stack; view := QuestionPage q d |} →
  Inv data (exec (handleAnswerSelection q k)
              {| navigationStack := stack; view := QuestionPage q d |}).
Proof.
  intros (Hok & Hbelow & Hq & Hstack).
  destruct (handleAnswerSelection_question q k stack q d)
    as (c & d' & Heq & _).
  unfold exec. rewrite Heq. cbn. split_and!; cbn; [done..|].
  split; [by apply closure_ok_answered|done].
Qed.

Lemma Inv_init : Inv data init.
Proof. split_and!; cbn; [constructor| |done]. by intros i c s l Hi. Qed.

(** Every listener keeps the invariant, whether it returns or throws. *)
Lemma Inv_dispatch e app : Inv data app → Inv data (dispatch data dataset e app).
Proof.
  intros HI. destruct app as [stack v]. unfold dispatch. cbn [view].
  pose proof HI as (Hok & Hbelow & Hpage). cbn in Hok, Hbelow, Hpage.
  destruct v as [| |c|c s|c s l|q d|q r], e as [i| | |i| | |];
    cbn [listener]; try done; try (by apply Inv_handleBack).
  - (* a course card *)
    case_decide as Hin; [|done].
    apply (Inv_renderView stack CourseGrid (VSubjects i) HI); [done|].
    intros _. by apply quiz_below_snoc.
  - (* a subject card *)
    case_decide as Hin; [|done].
    apply (Inv_renderView stack (SubjectGrid c) (VLessons c i) HI); [done|].
    intros _. by apply quiz_below_snoc.
  - (* a lesson card *)
    case_decide as Hin; [|done].
    apply (Inv_renderView stack (LessonGrid c s) (VLesson c s i) HI); [done|].
    intros _. by apply quiz_below_snoc.
  - (* Test Yourself *)
    apply (Inv_renderView stack (LessonPage c s l) (VQuiz c s l) HI); [done|].
    intros _. apply quiz_below_snoc; [done|]. intros ??? [= <- <- <-]. eauto.
  - (* an option button *)
    case_decide; [|done].
    pose proof (Inv_handleAnswerSelection stack q d (Z.of_nat i) HI) as HI'.
    destruct (handleAnswerSelection_question q (Z.of_nat i) stack q d)
      as (c & d' & Heq & _).
    unfold exec, mbind, M_bind in *. rewrite Heq in *. by destruct c.
  - (* Next, or Finish Quiz *)
    pose proof (Inv_handleNext stack q d HI) as HI'.
    unfold exec, mbind, M_bind in *.
    by destruct (handleNext q _) as [[] ?].
  - (* Previous *)
    destruct (prevDisabled d); [done|].
    pose proof (Inv_handlePrev stack q d HI) as HI'.
    unfold exec, mbind, M_bind in *.
    by destruct (handlePrev q _) as [[] ?].
  - (* Retry Quiz *)
    destruct Hpage as (Hq & pre & a & ->).
    apply (Inv_renderView _ (ResultsPage q r) (quiz_state q) HI); [done|].
    intros _. apply quiz_below_snoc; [done|]. intros c s l Hx.
    exists a. split; [by rewrite last_app|].
    assert (quiz_below data ((pre ++ [a]) ++ [quiz_state q])) as Hb.
    { apply (quiz_below_prefix _ [a]). by rewrite <- !app_assoc. }
    rewrite Hx in Hb.
    destruct (quiz_below_top _ _ _ _ Hb) as (pre' & t & Heq & Ht).
    by apply app_inj_tail in Heq as [_ <-].
Qed.

Theorem reachable_Inv app : reachable data dataset app → Inv data app.
Proof.
  induction 1 as [|e app _ IH]; [apply Inv_init|by apply Inv_dispatch].
Qed.

End Invariant.

(** ** Review records against the specification's wording *)

Section Review.

Implicit Types (answers : list Js.value) (questions : list Question).

Lemma elem_of_indexed_from k questions i question :
  (i, question) ∈ Spec.indexed_from k questions →
  ∃ j, i = (k + j)%nat ∧ questions !! j = Some question.
Proof.
  revert k. induction questions as [|x rest IH]; intros k Hin; cbn in Hin.
  - by apply elem_of_nil in Hin.
  - apply elem_of_cons in Hin as [[= -> ->]|Hin].
    + exists 0%nat. split; [lia|done].
    + destruct (IH _ Hin) as (j & -> & Hj). exists (S j). split; [lia|done].
Qed.

Lemma template_index (xs : list string) k :
  0 <= k < Z.of_nat (length xs) →
  Js.template (Js.index xs k) = nth (Z.to_nat k) xs "".
Proof.
  intros Hk. unfold Js.index, Js.template. rewrite decide_True by lia.
  rewrite nth_lookup.
  destruct (lookup_lt_is_Some_2 xs (Z.to_nat k)) as [x ->]; [lia|done].
Qed.

(** With valid slots and valid questions the markup of the page carries
    the record of the specification. *)
Lemma incorrect_question_record answers questions i question :
  Forall Spec.valid_question questions →
  Forall2 Spec.valid_slot answers questions →
  (i, question) ∈ Spec.indexed questions →
  incorrect_question (Js.get answers i) question =
  Spec.record answers (i, question).
Proof.
  intros Hvalid Hslots Hin. unfold Spec.indexed in Hin.
  apply elem_of_indexed_from in Hin as (j & -> & Hj). cbn [Nat.add].
  destruct (Forall2_lookup_r _ _ _ _ _ Hslots Hj) as (a & Ha & Hslot).
  pose proof (Forall_lookup_1 _ _ _ _ Hvalid Hj) as Hq.
  unfold incorrect_question, Spec.record, Js.get, Spec.option_text.
  cbn [fst snd]. rewrite Ha. cbn [default].
  rewrite template_index by done. f_equal.
  destruct Hslot as [->|(k & -> & Hk)].
  - by rewrite decide_False by (intros H; by apply H).
  - rewrite decide_True by done. cbn [Js.index_value id].
    by rewrite template_index.
Qed.

Lemma length_filter_split {A} (P : A → Prop) `{∀ x, Decision (P x)}
    (l : list A) :
  (length (filter P l) + length (filter (λ x, ¬ P x) l))%nat = length l.
Proof.
  induction l as [|x l IH]; [done|].
  destruct (decide (P x)).
  - rewrite filter_cons_True, (filter_cons_False (λ x, ¬ P x)) by tauto.
    cbn. lia.
  - rewrite filter_cons_False, (filter_cons_True (λ x, ¬ P x)) by tauto.
    cbn. lia.
Qed.

Lemma length_indexed_from k questions :
  length (Spec.indexed_from k questions) = length questions.
Proof.
  revert k. induction questions as [|x rest IH]; intros k; cbn; [done|].
  by rewrite IH.
Qed.

End Review.

(** ** Sessions under arbitrary operations *)

Section Sessions.

Implicit Types (q : QuizClosure) (app : App).

Lemma session_in_range_call les op app :
  session_in_range les app → session_in_range les (call op app).
Proof.
  intros (q & Hs & Hles & Hi). unfold call. rewrite Hs.
  destruct op as [| |k].
  - destruct (decide (currentQuestionIndex q + 1 < length (quizData q))%nat)
      as [Hlt|Hge].
    + destruct (handleNext_advance q app Hlt) as [d Heq].
      unfold exec. rewrite Heq. eexists. split; [done|]. split; [done|].
      cbn. unfold quizData in *. cbn. lia.
    + unfold exec. rewrite handleNext_finish, renderResults_eq by done.
      by exists q.
  - destruct (decide (currentQuestionIndex q = 0%nat)) as [H0|Hpos].
    + unfold exec. rewrite handlePrev_first by done. by exists q.
    + destruct (handlePrev_back q app) as [d Heq]; [lia..|].
      unfold exec. rewrite Heq. eexists. split; [done|]. split; [done|].
      cbn. unfold quizData in *. cbn. lia.
  - destruct app as [stack v]. cbn in Hs.
    destruct v as [| | | | |q0 d|q0 r]; simplify_eq/=.
    + destruct (handleAnswerSelection_question q k stack q d)
        as (c & d' & Heq & _).
      unfold exec. rewrite Heq. by exists (answered q k).
    + unfold exec. rewrite handleAnswerSelection_results.
      by exists (answered q k).
Qed.

Lemma session_in_range_calls les ops app :
  session_in_range les app → session_in_range les (calls ops app).
Proof.
  revert app. induction ops as [|op ops IH]; intros app Happ; [done|].
  cbn. apply IH. by apply session_in_range_call.
Qed.

Lemma reachable_run data dataset es app :
  reachable data dataset app → reachable data dataset (run data dataset es app).
Proof.
  revert app. induction es as [|e es IH]; intros app Happ; [done|].
  cbn. apply IH. by constructor.
Qed.

End Sessions.

(** ** Scoring and review *)

Section ScoreAndReview.

Import Sample.




(** C2. For every quiz closure whose slots hold [null] or an option index
    and whose questions have a valid [answerIndex], the results page lists
    exactly one record (stem, chosen option text or [Not Answered], correct
    option text) for each question whose recorded answer is not its
    [answerIndex], none for the others, in the order of the lesson. *)
Theorem review_lists_wrong_answers (q : QuizClosure) (app : App) :
  Forall Spec.valid_question (quizData q) →
  Forall2 Spec.valid_slot (userAnswers q) (quizData q) →
  ∃ r,
    view (exec (renderResults q) app) = ResultsPage q r ∧
    resultsHtml r = Spec.review (quizData q) (userAnswers q) ∧
    (length (resultsHtml r) + correctAnswers r)%nat = total r.
Proof.
  intros Hvalid Hslots. exists (results_of (results_loop q)).
  unfold exec. rewrite renderResults_eq. cbn [snd view].
  rewrite results_loop_eq. unfold results_of. cbn.
  split_and!; [done| |].
  - unfold Spec.review. apply list_eq_Forall2, Forall2_fmap, Forall_Forall2_diag.
    apply Forall_forall. intros [i question] Hin.
    apply list_elem_of_filter in Hin as [_ Hin].
    by apply (incorrect_question_record _ (quizData q)).
  - rewrite length_fmap. unfold Spec.correctCount.
    rewrite Nat.add_comm, length_filter_split.
    apply length_indexed_from.
Qed.

Lemma review_lists_wrong_answers_witness :
  let q := closure_of anatomy 2 [Js.Number 1; Js.Number 0; Js.Null] in
  ∃ r,
    view (exec (renderResults q) init) = ResultsPage q r ∧
    resultsHtml r = Spec.review (quizData q) (userAnswers q) ∧
    (length (resultsHtml r) + correctAnswers r)%nat = total r.
Proof.
  apply (review_lists_wrong_answers
           (closure_of anatomy 2 [Js.Number 1; Js.Number 0; Js.Null]) init).
  - unfold quizData, closure_of, anatomy. cbn.
    repeat (apply Forall_cons; split; [unfold Spec.valid_question; cbn; lia|]).
    apply Forall_nil_2.
  - unfold quizData, closure_of, anatomy. cbn.
    repeat (constructor;
            [first [by left | right; eexists; split; [reflexivity|cbn; lia]]|]).
    constructor.
Defined.

(** C8. Computing the score changes nothing of the session: after
    [renderResults] the closure has the same [currentQuestionIndex] and
    the same [userAnswers], the loop leaves the closure's variables as
    they were, and computing the score again gives the same result. *)
Theorem score_leaves_session_unchanged (q : QuizClosure) (app : App) :
  let app' := exec (renderResults q) app in
  session (view app') = Some q ∧
  (renderResults q app).1 = Normal q ∧
  closure (results_loop q) = q ∧
  results_of (results_loop (closure (results_loop q))) =
    results_of (results_loop q) ∧
  view (exec (renderResults q) app') = view app'.
Proof.
  cbn zeta. unfold exec. rewrite !renderResults_eq. cbn [fst snd view session].
  rewrite results_loop_eq. cbn [closure]. by rewrite results_loop_eq.
Qed.

End ScoreAndReview.

(** ** Answer selection *)

Section Selection.

Import Sample.

(** C3, as the code has it. Once an answer is recorded by a click on an
    option, any further click on an option of the same rendering of that
    question is a no-op: the buttons were disabled by the first click, so
    no listener runs and the [app] object, [userAnswers] included, stays
    as it is. *)
Theorem second_click_is_blocked
    (data : Database) (dataset : string → string)
    (app : App) (q : QuizClosure) (d : QuestionDom)
    (i j : nat) :
  view app = QuestionPage q d →
  (i < optionCount d)%nat →
  optionsDisabled d = false →
  let app1 := dispatch data dataset (ClickOption i) app in
  session (view app1) = Some (answered q (Z.of_nat i)) ∧
  dispatch data dataset (ClickOption j) app1 = app1.
Proof.
  intros Hview Hi Hd. destruct app as [stack v]. cbn in Hview. subst v.
  destruct (handleAnswerSelection_question q (Z.of_nat i) stack q d)
    as (c & d' & Heq & Hdis).
  assert (dispatch data dataset (ClickOption i)
            {| navigationStack := stack; view := QuestionPage q d |} =
          {| navigationStack := stack;
             view := QuestionPage (answered q (Z.of_nat i)) d' |}) as ->.
  { unfold dispatch. cbn [view listener]. rewrite decide_True by done.
    unfold exec, mbind, M_bind. rewrite Heq. by destruct c. }
  cbn zeta. split; [done|].
  unfold dispatch. cbn [view listener].
  by rewrite decide_False by (rewrite Hdis; intros [_ ?]; done).
Qed.

Lemma second_click_is_blocked_witness :
  let app := run db id (open_quiz "anatomy") init in
  let app1 := dispatch db id (ClickOption 0) app in
  session (view app1) =
    Some (answered (newQuiz "gyn" "basics" "anatomy" anatomy) 0) ∧
  dispatch db id (ClickOption 2) app1 = app1.
Proof.
  apply (second_click_is_blocked db id (run db id (open_quiz "anatomy") init)
           (newQuiz "gyn" "basics" "anatomy" anatomy)
           {| optionCount := 3; optionsDisabled := false;
              prevDisabled := true; explanationShown := false |} 0 2).
  - vm_compute. reflexivity.
  - cbn. lia.
  - reflexivity.
Defined.

(** C3, counterexample. The session has no guard of its own: answering
    question 1 with option 0, going to question 2 and back, and clicking
    option 2 replaces the recorded answer; so does a second call of
    [handleAnswerSelection] on the closure without any navigation. *)
Lemma reselect_overwrites_answer :
  let app := run db id (open_quiz "anatomy" ++ [ClickOption 0]) init in
  let back := run db id [ClickNext; ClickPrev] app in
  userAnswers <$> session (view app) =
    Some [Js.Number 0; Js.Null; Js.Null] ∧
  currentQuestionIndex <$> session (view back) = Some 0%nat ∧
  userAnswers <$> session (view back) =
    Some [Js.Number 0; Js.Null; Js.Null] ∧
  userAnswers <$> session (view (dispatch db id (ClickOption 2) back)) =
    Some [Js.Number 2; Js.Null; Js.Null] ∧
  userAnswers <$> session (view (dispatch db id (ClickOption 2) back)) ≠
    userAnswers <$> session (view back) ∧
  userAnswers <$> session (view (call (OpSelect 2) app)) =
    Some [Js.Number 2; Js.Null; Js.Null].
Proof. vm_compute. split_and!; done. Qed.

End Selection.

(** ** Back navigation *)

Section BackNavigation.

Import Sample.

(** C4. On an empty stack [handleBack] returns normally and shows the
    course list.  After one push on a stack of entries that resolve,
    [handleBack] shows the page of the state the stack stood at before
    that push (the course list if it was empty) and leaves the stack as
    it was before the push. *)
Theorem handleBack_returns_to_previous
    (data : Database) (stack : list ViewState) (s : ViewState) (v : Screen) :
  Forall (entry_ok data) stack →
  handleBack data {| navigationStack := []; view := v |} =
    (Normal tt, {| navigationStack := []; view := CourseGrid |}) ∧
  ∃ page,
    rendered data (current stack) = Some page ∧
    handleBack data {| navigationStack := stack ++ [s]; view := v |} =
    (Normal tt, {| navigationStack := stack; view := page |}).
Proof.
  intros Hok. split.
  - destruct (handleBack_eq data [] v) as (page & Hpage & Heq); [done|].
    cbn in Hpage. by simplify_eq.
  - destruct (handleBack_eq data (stack ++ [s]) v) as (page & Hpage & Heq).
    { by rewrite removelast_last. }
    rewrite removelast_last in *. eauto.
Qed.

Lemma handleBack_returns_to_previous_witness :
  handleBack db
    {| navigationStack := []; view := LessonPage "gyn" "basics" "anatomy" |} =
    (Normal tt, {| navigationStack := []; view := CourseGrid |}) ∧
  ∃ page,
    rendered db (current [VSubjects "gyn"; VLessons "gyn" "basics"]) =
      Some page ∧
    handleBack db
      {| navigationStack :=
           [VSubjects "gyn"; VLessons "gyn" "basics"] ++
           [VLesson "gyn" "basics" "anatomy"];
         view := LessonPage "gyn" "basics" "anatomy" |} =
    (Normal tt,
     {| navigationStack := [VSubjects "gyn"; VLessons "gyn" "basics"];
        view := page |}).
Proof.
  apply (handleBack_returns_to_previous db
           [VSubjects "gyn"; VLessons "gyn" "basics"]
           (VLesson "gyn" "basics" "anatomy")
           (LessonPage "gyn" "basics" "anatomy")).
  repeat (apply Forall_cons; split;
          [split; [done | vm_compute; eauto]|]).
  apply Forall_nil_2.
Defined.

(** C10. In every reachable state the stack holds no root state: the
    course list is rendered without a state and pushes nothing, and
    [handleBack] shows the course list only when the stack is empty after
    its first [pop]. *)
Theorem stack_never_holds_root
    (data : Database) (dataset : string → string) (app : App) :
  reachable data dataset app →
  (VCourses ∉ navigationStack app) ∧
  navigationStack (exec renderCourseList app) = navigationStack app ∧
  (view (exec (handleBack data) app) = CourseGrid →
   removelast (navigationStack app) = [] ∧
   navigationStack (exec (handleBack data) app) = []).
Proof.
  intros Hreach. apply reachable_Inv in Hreach as (Hok & _ & _).
  split_and!.
  - intros Hin. rewrite Forall_forall in Hok.
    by destruct (Hok _ Hin) as [? _].
  - done.
  - destruct app as [stack v]. cbn in Hok.
    destruct (handleBack_eq data stack v) as (page & Hpage & Heq).
    { by apply Forall_removelast. }
    unfold exec. rewrite Heq. cbn. intros ->.
    apply Forall_removelast in Hok.
    destruct (removelast stack) as [|t pre _] using rev_ind; [done|].
    exfalso. unfold current in Hpage. rewrite last_snoc in Hpage.
    rewrite Forall_app, Forall_singleton in Hok.
    destruct Hok as [_ [Hne _]]. cbn in Hpage.
    destruct t as [|c|c s|c s l|c s l]; cbn in Hpage; [done|..].
    + by destruct (courses data !! c).
    + by destruct (lookup_subject data c s).
    + by destruct (lookup_lesson data c s l).
    + destruct (lookup_lesson data c s l) as [les|]; [|done]. cbn in Hpage.
      by destruct (head (quiz les)).
Qed.

Lemma stack_never_holds_root_witness :
  let app := run db id (open_quiz "cycle" ++ [ClickNext]) init in
  (VCourses ∉ navigationStack app) ∧
  navigationStack (exec renderCourseList app) = navigationStack app ∧
  (view (exec (handleBack db) app) = CourseGrid →
   removelast (navigationStack app) = [] ∧
   navigationStack (exec (handleBack db) app) = []).
Proof.
  apply (stack_never_holds_root db id
           (run db id (open_quiz "cycle" ++ [ClickNext]) init)).
  apply reachable_run. constructor.
Defined.

End BackNavigation.

(** ** Starting, running and restarting a quiz *)

Section Quiz.

Import Sample.

(** C5, as the code has it. When the id triple does not resolve in the
    content model, [renderQuiz] ends in an uncaught [TypeError] at the
    failed property read, before any assignment: no closure is created,
    and the stack and the page stay as they were, with no redirect to the
    course list; the same holds for the listener that called it. *)
Theorem renderQuiz_unresolved_throws
    (data : Database) (dataset : string → string) (c s l : string) (app : App) :
  lookup_lesson data c s l = None →
  renderQuiz data c s l app = (TypeError, app) ∧
  renderView data (VQuiz c s l) app = (TypeError, app) ∧
  (∀ e, listener data dataset (view app) e = Some (renderQuiz data c s l) →
        dispatch data dataset e app = app).
Proof.
  intros Hl.
  assert (renderQuiz data c s l app = (TypeError, app)) as Heq.
  { by rewrite renderQuiz_eq, Hl. }
  split_and!; [done..|].
  intros e He. unfold dispatch, exec. by rewrite He, Heq.
Qed.

Lemma renderQuiz_unresolved_throws_witness :
  let app := run db id [ClickCard "gyn"; ClickCard "basics"; ClickCard "cycle"]
               init in
  renderQuiz db "gyn" "basics" "missing" app = (TypeError, app) ∧
  renderView db (VQuiz "gyn" "basics" "missing") app = (TypeError, app) ∧
  (∀ e, listener db id (view app) e = Some (renderQuiz db "gyn" "basics" "missing") →
        dispatch db id e app = app).
Proof.
  apply (renderQuiz_unresolved_throws db id "gyn" "basics" "missing"
           (run db id [ClickCard "gyn"; ClickCard "basics"; ClickCard "cycle"]
              init)).
  vm_compute. reflexivity.
Defined.

(** C5, counterexample. On the lesson page of an existing lesson, a quiz
    for a lesson id that does not exist ends in a [TypeError]; the page is
    still the lesson page, not the course list, and the stack is the one
    from before the call. *)
Lemma unresolved_quiz_is_not_redirected :
  let app := run db id [ClickCard "gyn"; ClickCard "basics"; ClickCard "cycle"]
               init in
  lookup_lesson db "gyn" "basics" "missing" = None ∧
  (renderQuiz db "gyn" "basics" "missing" app).1 = TypeError ∧
  view (exec (renderQuiz db "gyn" "basics" "missing") app) =
    LessonPage "gyn" "basics" "cycle" ∧
  view (exec (renderQuiz db "gyn" "basics" "missing") app) ≠ CourseGrid ∧
  navigationStack (exec (renderQuiz db "gyn" "basics" "missing") app) =
    [VSubjects "gyn"; VLessons "gyn" "basics"; VLesson "gyn" "basics" "cycle"].
Proof. vm_compute. split_and!; done. Qed.

(** C6. Once [renderQuiz] has started a session, after every sequence of
    [next()], [prev()] and [selectAnswer(k)] calls the closure's
    [currentQuestionIndex] is below the number of questions.  [next()] at
    the last question shows the results and leaves the index as it is;
    [prev()] at index 0 changes nothing. *)
Theorem index_stays_in_range
    (data : Database) (c s l : string) (app app0 : App)
    (ops : list SessionOp) :
  renderQuiz data c s l app = (Normal tt, app0) →
  (∃ q,
     session (view (calls ops app0)) = Some q ∧
     (0 ≤ currentQuestionIndex q < length (quizData q))%nat ∧
     lookup_lesson data c s l = Some (lesson q)) ∧
  (∀ q app1,
     (currentQuestionIndex q + 1)%nat = length (quizData q) →
     (handleNext q app1).1 = Normal q ∧
     ∃ r, view (exec (handleNext q) app1) = ResultsPage q r) ∧
  (∀ q app1,
     currentQuestionIndex q = 0%nat → handlePrev q app1 = (Normal q, app1)).
Proof.
  intros Hstart. split_and!.
  - rewrite renderQuiz_eq in Hstart.
    destruct (lookup_lesson data c s l) as [les|] eqn:Hl; [|done].
    rewrite renderCurrentQuestion_eq in Hstart.
    destruct (quizData _ !! _) as [question|] eqn:Hq; [|done].
    apply lookup_lt_Some in Hq. injection Hstart as <-.
    destruct (session_in_range_calls les ops
                {| navigationStack := navigationStack app ++
                                      [quiz_state (newQuiz c s l les)];
                   view := QuestionPage (newQuiz c s l les)
                     {| optionCount := length (options question);
                        optionsDisabled := false;
                        prevDisabled :=
                          bool_decide
                            (currentQuestionIndex (newQuiz c s l les) = 0%nat);
                        explanationShown := false |} |})
      as (q & Hs & Hles & Hi).
    { by exists (newQuiz c s l les). }
    exists q. rewrite Hles. split_and!; [done|lia|done|done].
  - intros q app1 Hlast. unfold exec.
    rewrite handleNext_finish, renderResults_eq by lia. eauto.
  - intros q app1 H0. by apply handlePrev_first.
Qed.

Lemma index_stays_in_range_witness :
  let app := run db id [ClickCard "gyn"; ClickCard "basics"; ClickCard "anatomy"]
               init in
  let app0 := exec (renderQuiz db "gyn" "basics" "anatomy") app in
  let ops := [OpNext; OpNext; OpNext; OpSelect 7; OpPrev; OpNext; OpNext] in
  (∃ q,
     session (view (calls ops app0)) = Some q ∧
     (0 ≤ currentQuestionIndex q < length (quizData q))%nat ∧
     lookup_lesson db "gyn" "basics" "anatomy" = Some (lesson q)) ∧
  (∀ q app1,
     (currentQuestionIndex q + 1)%nat = length (quizData q) →
     (handleNext q app1).1 = Normal q ∧
     ∃ r, view (exec (handleNext q) app1) = ResultsPage q r) ∧
  (∀ q app1,
     currentQuestionIndex q = 0%nat → handlePrev q app1 = (Normal q, app1)).
Proof.
  apply (index_stays_in_range db "gyn" "basics" "anatomy"
           (run db id [ClickCard "gyn"; ClickCard "basics"; ClickCard "anatomy"]
              init)).
  vm_compute. reflexivity.
Defined.

End Quiz.

(** ** The results page: retry and back *)

Section ResultsNavigation.

Import Sample.

(** C7. From every reachable results page, whatever the closure of the
    finished session holds, Retry shows the first question of the same
    lesson with a new closure: [currentQuestionIndex] is 0 and every slot
    of [userAnswers] is [null]; it is the page [renderQuiz] shows for that
    lesson from any other state. *)
Theorem retry_starts_fresh_session
    (data : Database) (dataset : string → string)
    (app : App) (q : QuizClosure) (r : Results) :
  reachable data dataset app →
  view app = ResultsPage q r →
  let fresh := newQuiz (courseId q) (subjectId q) (lessonId q) (lesson q) in
  ∃ question,
    head (quizData q) = Some question ∧
    view (dispatch data dataset ClickRetry app) =
      first_question (courseId q) (subjectId q) (lessonId q) (lesson q)
        question ∧
    session (view (dispatch data dataset ClickRetry app)) = Some fresh ∧
    currentQuestionIndex fresh = 0%nat ∧
    userAnswers fresh = replicate (length (quizData q)) Js.Null ∧
    ∀ app',
      view (exec (renderQuiz data (courseId q) (subjectId q) (lessonId q)) app')
      = view (dispatch data dataset ClickRetry app).
Proof.
  intros Hreach Hview. apply reachable_Inv in Hreach as (_ & _ & Hpage).
  rewrite Hview in Hpage. destruct Hpage as [Hq _].
  destruct (closure_ok_rendered data q Hq) as (question & Hhead & Hr).
  assert (∀ app',
    view (exec (renderQuiz data (courseId q) (subjectId q) (lessonId q)) app')
    = first_question (courseId q) (subjectId q) (lessonId q) (lesson q)
        question) as Hfresh.
  { intros app'. unfold exec.
    change (renderQuiz data (courseId q) (subjectId q) (lessonId q))
      with (renderView data (quiz_state q)).
    by rewrite renderView_eq, Hr. }
  assert (view (dispatch data dataset ClickRetry app) =
          first_question (courseId q) (subjectId q) (lessonId q) (lesson q)
            question) as Hretry.
  { unfold dispatch. rewrite Hview. cbn [listener]. apply Hfresh. }
  exists question. rewrite Hretry. split_and!; try done.
Qed.

Lemma retry_starts_fresh_session_witness :
  let app := run db id (open_quiz "anatomy" ++
                     [ClickOption 1; ClickNext; ClickNext; ClickOption 2;
                      ClickNext]) init in
  let q := closure_of anatomy 2 [Js.Number 1; Js.Null; Js.Number 2] in
  let fresh := newQuiz (courseId q) (subjectId q) (lessonId q) (lesson q) in
  ∃ question,
    head (quizData q) = Some question ∧
    view (dispatch db id ClickRetry app) =
      first_question (courseId q) (subjectId q) (lessonId q) (lesson q)
        question ∧
    session (view (dispatch db id ClickRetry app)) = Some fresh ∧
    currentQuestionIndex fresh = 0%nat ∧
    userAnswers fresh = replicate (length (quizData q)) Js.Null ∧
    ∀ app',
      view (exec (renderQuiz db (courseId q) (subjectId q) (lessonId q)) app')
      = view (dispatch db id ClickRetry app).
Proof.
  apply (retry_starts_fresh_session db id
           (run db id (open_quiz "anatomy" ++
                    [ClickOption 1; ClickNext; ClickNext; ClickOption 2;
                     ClickNext]) init)
           (closure_of anatomy 2 [Js.Number 1; Js.Null; Js.Number 2])
           (results_of (results_loop
              (closure_of anatomy 2 [Js.Number 1; Js.Null; Js.Number 2])))).
  - apply reachable_run. constructor.
  - vm_compute. reflexivity.
Defined.

(** What [renderResults] pushes, on every reachable quiz page at its last
    question: [navigationStack[length - 2]], the entry just below the top.
    That is the lesson state when the lesson has a single question and a
    quiz state, pushed by an earlier rendering of a question, when it has
    more. Back from the results page pops that entry and the quiz entry,
    renders the quiz state again, and so shows question 1 with a new
    closure on the stack the quiz page had. *)
Lemma results_push_entry_below_top
    (data : Database) (dataset : string → string) (app : App)
    (q : QuizClosure) (d : QuestionDom) :
  reachable data dataset app →
  view app = QuestionPage q d →
  (currentQuestionIndex q + 1)%nat = length (quizData q) →
  let app' := dispatch data dataset ClickNext app in
  ∃ pre a r question,
    navigationStack app = pre ++ [a; quiz_state q] ∧
    Js.index (navigationStack app)
             (Z.of_nat (length (navigationStack app)) - 2) = Some a ∧
    a = (if decide (length (quizData q) = 1%nat)
         then lesson_state q else quiz_state q) ∧
    app' = {| navigationStack := navigationStack app ++ [a];
              view := ResultsPage q r |} ∧
    head (quizData q) = Some question ∧
    dispatch data dataset ClickBack app' =
      {| navigationStack := navigationStack app;
         view := first_question (courseId q) (subjectId q) (lessonId q)
                   (lesson q) question |}.
Proof.
  intros Hreach Hview Hlast. destruct app as [stack v]. cbn in Hview.
  subst v. pose proof (reachable_Inv data dataset _ Hreach) as HI.
  destruct (question_page_below data _ _ _ HI) as (pre & a & -> & Ha).
  destruct HI as (Hok & Hbelow & Hq & _). cbn [navigationStack view] in *.
  destruct (closure_ok_rendered data q Hq) as (question & Hhead & Hr).
  exists pre, a, (results_of (results_loop q)), question.
  assert (dispatch data dataset ClickNext
            {| navigationStack := pre ++ [a; quiz_state q];
               view := QuestionPage q d |} =
          {| navigationStack := (pre ++ [a; quiz_state q]) ++ [a];
             view := ResultsPage q (results_of (results_loop q)) |}) as ->.
  { unfold dispatch. cbn [view listener]. unfold exec, mbind, M_bind.
    rewrite handleNext_finish, renderResults_eq by lia.
    cbn [navigationStack snd]. by rewrite index_below_top. }
  split_and!; [done| | |done|done|].
  - apply index_below_top.
  - destruct Ha as [[-> H0]|[-> Hlen]].
    + rewrite decide_True by lia. done.
    + rewrite decide_False by lia. done.
  - unfold dispatch. cbn [view listener].
    destruct (handleBack_eq data ((pre ++ [a; quiz_state q]) ++ [a])
                (ResultsPage q (results_of (results_loop q))))
      as (page & Hpage & Heq).
    { by rewrite removelast_last. }
    unfold exec. rewrite Heq. cbn [snd]. rewrite removelast_last in *.
    f_equal. unfold current in Hpage.
    rewrite (last_app_cons pre [quiz_state q] a) in Hpage.
    cbn in Hpage, Hr. rewrite Hr in Hpage. by simplify_eq.
Qed.

Lemma results_push_entry_below_top_witness :
  let app := run db id (open_quiz "cycle") init in
  let q := newQuiz "gyn" "basics" "cycle" cycle in
  let app' := dispatch db id ClickNext app in
  ∃ pre a r question,
    navigationStack app = pre ++ [a; quiz_state q] ∧
    Js.index (navigationStack app)
             (Z.of_nat (length (navigationStack app)) - 2) = Some a ∧
    a = (if decide (length (quizData q) = 1%nat)
         then lesson_state q else quiz_state q) ∧
    app' = {| navigationStack := navigationStack app ++ [a];
              view := ResultsPage q r |} ∧
    head (quizData q) = Some question ∧
    dispatch db id ClickBack app' =
      {| navigationStack := navigationStack app;
         view := first_question (courseId q) (subjectId q) (lessonId q)
                   (lesson q) question |}.
Proof.
  apply (results_push_entry_below_top db id (run db id (open_quiz "cycle") init)
           (newQuiz "gyn" "basics" "cycle" cycle)
           {| optionCount := 3; optionsDisabled := false;
              prevDisabled := true; explanationShown := false |}).
  - apply reachable_run. constructor.
  - vm_compute. reflexivity.
  - reflexivity.
Defined.

(** C9. On the last of the three questions of a lesson, reached by two
    clicks on Next, [navigationStack[length - 2]] is a quiz state, pushed
    when the second question was rendered. Finishing pushes that quiz
    state: not the lesson state, and not the state the comment on the call
    names ([// Go back to lesson list state]). Back from the results page
    then shows the first question with a new session, on the stack the
    last question had. *)
Lemma results_push_is_not_lesson_state :
  let app := run db id (open_quiz "anatomy" ++ [ClickNext; ClickNext]) init in
  let app' := dispatch db id ClickNext app in
  currentQuestionIndex <$> session (view app) = Some 2%nat ∧
  navigationStack app =
    [VSubjects "gyn"; VLessons "gyn" "basics";
     VLesson "gyn" "basics" "anatomy"; VQuiz "gyn" "basics" "anatomy";
     VQuiz "gyn" "basics" "anatomy"; VQuiz "gyn" "basics" "anatomy"] ∧
  Js.index (navigationStack app)
           (Z.of_nat (length (navigationStack app)) - 2) =
    Some (VQuiz "gyn" "basics" "anatomy") ∧
  navigationStack app' =
    navigationStack app ++ [VQuiz "gyn" "basics" "anatomy"] ∧
  navigationStack app' ≠
    navigationStack app ++ [VLesson "gyn" "basics" "anatomy"] ∧
  navigationStack app' ≠
    navigationStack app ++ [VLessons "gyn" "basics"] ∧
  session (view (dispatch db id ClickBack app')) =
    Some (newQuiz "gyn" "basics" "anatomy" anatomy) ∧
  navigationStack (dispatch db id ClickBack app') = navigationStack app.
Proof. vm_compute. split_and!; done. Qed.

End ResultsNavigation.

(** * Further properties of the code *)

(** ** The results page *)

Section ResultsPageFacts.

Import Sample.

Implicit Types (q : QuizClosure) (answers : list Js.value)
  (questions : list Question).

Lemma results_page_eq q app :
  view (exec (renderResults q) app) =
  ResultsPage q (results_of (results_loop q)).
Proof. unfold exec. by rewrite renderResults_eq. Qed.

(** X1. On every results page the number of blocks listed for review and
    the number of correct answers add up to the number of questions, and
    the Congratulations paragraph replaces the list exactly when every
    question was answered correctly. *)
Theorem congratulations_iff_all_correct (q : QuizClosure) (app : App) :
  ∃ r,
    view (exec (renderResults q) app) = ResultsPage q r ∧
    (length (resultsHtml r) + correctAnswers r)%nat = total r ∧
    (reviewSection r = Congratulations ↔ correctAnswers r = total r).
Proof.
  exists (results_of (results_loop q)). split; [apply results_page_eq|].
  rewrite results_loop_eq. unfold results_of, reviewSection.
  cbn [closure counted html resultsHtml correctAnswers total].
  assert (length ((λ iq : nat * Question,
                     incorrect_question (Js.get (userAnswers q) iq.1) iq.2) <$>
                  filter (λ iq, ¬ Spec.answered_correctly (userAnswers q) iq)
                         (Spec.indexed (quizData q))) +
          Spec.correctCount (quizData q) (userAnswers q) =
          length (quizData q))%nat as Hsum.
  { rewrite length_fmap. unfold Spec.correctCount.
    rewrite Nat.add_comm, length_filter_split. apply length_indexed_from. }
  split; [done|].
  destruct (_ <$> _) as [|block blocks]; cbn in *; split; intros; (done || lia).
Qed.

Lemma filter_all {A} (P : A → Prop) `{∀ x, Decision (P x)} (l : list A) :
  Forall P l → filter P l = l.
Proof.
  induction 1 as [|x l Hx _ IH]; [done|].
  by rewrite filter_cons_True, IH.
Qed.

Lemma filter_none {A} (P : A → Prop) `{∀ x, Decision (P x)} (l : list A) :
  Forall (λ x, ¬ P x) l → filter P l = [].
Proof.
  induction 1 as [|x l Hx _ IH]; [done|].
  by rewrite filter_cons_False.
Qed.

Lemma indexed_from_fmap_snd {B} (g : Question → B) k questions :
  (λ iq : nat * Question, g iq.2) <$> Spec.indexed_from k questions =
  g <$> questions.
Proof.
  revert k. induction questions as [|x rest IH]; intros k; cbn; [done|].
  by rewrite IH.
Qed.

(** X2. Finishing a quiz in which no slot was answered shows 0 correct
    answers and lists every question of the lesson, in order, with
    [Not Answered] as the answer given. *)
Theorem unanswered_quiz_lists_every_question (q : QuizClosure) (app : App) :
  userAnswers q = Js.filled_null (length (quizData q)) →
  ∃ r,
    view (exec (renderResults q) app) = ResultsPage q r ∧
    correctAnswers r = 0%nat ∧
    resultsHtml r =
      (λ question,
         {| shownStem := stem question;
            yourAnswer := "Not Answered";
            correctAnswer :=
              Js.template (Js.index (options question) (answerIndex question))
         |}) <$> quizData q.
Proof.
  intros Hnull. exists (results_of (results_loop q)).
  split; [apply results_page_eq|].
  rewrite results_loop_eq. unfold results_of.
  cbn [closure counted html resultsHtml correctAnswers].
  assert (∀ iq, iq ∈ Spec.indexed (quizData q) →
            userAnswers q !! iq.1 = Some Js.Null) as Hslot.
  { intros [i question] Hin. unfold Spec.indexed in Hin.
    apply elem_of_indexed_from in Hin as (j & -> & Hj).
    apply lookup_lt_Some in Hj. rewrite Hnull. cbn.
    by apply lookup_replicate_2. }
  assert (Forall (λ iq, ¬ Spec.answered_correctly (userAnswers q) iq)
            (Spec.indexed (quizData q))) as Hwrong.
  { apply Forall_forall. intros iq Hin Hc. unfold Spec.answered_correctly in Hc.
    by rewrite (Hslot iq Hin) in Hc. }
  pose proof Hwrong as Hwrong'. unfold Spec.correctCount.
  rewrite (filter_none _ _ Hwrong'). split; [done|].
  rewrite (filter_all _ _ Hwrong).
  rewrite <- (indexed_from_fmap_snd _ 0%nat (quizData q)).
  apply list_eq_Forall2, Forall2_fmap, Forall_Forall2_diag.
  apply Forall_forall. intros [i question] Hin.
  unfold incorrect_question, Js.get. rewrite (Hslot _ Hin). cbn.
  by rewrite decide_False by (intros H; by apply H).
Qed.

Lemma unanswered_quiz_lists_every_question_witness :
  let q := newQuiz "gyn" "basics" "anatomy" anatomy in
  ∃ r,
    view (exec (renderResults q) init) = ResultsPage q r ∧
    correctAnswers r = 0%nat ∧
    resultsHtml r =
      (λ question,
         {| shownStem := stem question;
            yourAnswer := "Not Answered";
            correctAnswer :=
              Js.template (Js.index (options question) (answerIndex question))
         |}) <$> quizData q.
Proof.
  apply (unanswered_quiz_lists_every_question
           (newQuiz "gyn" "basics" "anatomy" anatomy) init).
  reflexivity.
Defined.

Lemma filter_correct_insert_above answers c v k questions :
  (c < k)%nat →
  filter (Spec.answered_correctly (<[c:=v]> answers))
         (Spec.indexed_from k questions) =
  filter (Spec.answered_correctly answers) (Spec.indexed_from k questions).
Proof.
  revert k. induction questions as [|x rest IH]; intros k Hlt; [done|].
  cbn [Spec.indexed_from]. rewrite !filter_cons, IH by lia.
  assert (Spec.answered_correctly (<[c:=v]> answers) (k, x) ↔
          Spec.answered_correctly answers (k, x)) as Hiff.
  { unfold Spec.answered_correctly. cbn [fst snd].
    by rewrite list_lookup_insert_ne by lia. }
  destruct (decide (Spec.answered_correctly (<[c:=v]> answers) (k, x))),
    (decide (Spec.answered_correctly answers (k, x)));
    first [done | exfalso; tauto].
Qed.

(** The count of correct answers after [answers[c] = v], against the count
    before: the slot [c] stops counting if it did and counts if [v] is the
    correct index. *)
Lemma count_after_insert answers c v k questions qc :
  (k ≤ c)%nat → questions !! (c - k)%nat = Some qc →
  (c < length answers)%nat →
  (length (filter (Spec.answered_correctly (<[c:=v]> answers))
                  (Spec.indexed_from k questions)) +
   (if decide (Spec.answered_correctly answers (c, qc)) then 1 else 0))%nat =
  (length (filter (Spec.answered_correctly answers)
                  (Spec.indexed_from k questions)) +
   (if decide (v = Js.Number (answerIndex qc)) then 1 else 0))%nat.
Proof.
  revert k. induction questions as [|x rest IH]; intros k Hle Hqc Hc; [done|].
  cbn [Spec.indexed_from]. rewrite !filter_cons.
  destruct (decide (k = c)) as [->|Hne].
  - rewrite Nat.sub_diag in Hqc. cbn in Hqc. simplify_eq.
    rewrite filter_correct_insert_above by lia.
    assert (Spec.answered_correctly (<[c:=v]> answers) (c, qc) ↔
            v = Js.Number (answerIndex qc)) as Hiff.
    { unfold Spec.answered_correctly. cbn [fst snd].
      rewrite list_lookup_insert_eq by done. split; congruence. }
    destruct (decide (Spec.answered_correctly (<[c:=v]> answers) (c, qc))),
      (decide (v = Js.Number (answerIndex qc)));
      try (exfalso; tauto);
      destruct (decide (Spec.answered_correctly answers (c, qc)));
      cbn [length]; lia.
  - assert (rest !! (c - S k)%nat = Some qc) as Hrest.
    { replace (c - k)%nat with (S (c - S k)) in Hqc by lia. done. }
    specialize (IH (S k) ltac:(lia) Hrest Hc).
    assert (Spec.answered_correctly (<[c:=v]> answers) (k, x) ↔
            Spec.answered_correctly answers (k, x)) as Hiff.
    { unfold Spec.answered_correctly. cbn [fst snd].
      by rewrite list_lookup_insert_ne by lia. }
    destruct (decide (Spec.answered_correctly (<[c:=v]> answers) (k, x))),
      (decide (Spec.answered_correctly answers (k, x)));
      try (exfalso; tauto); cbn [length]; lia.
Qed.

(** X3. Recording an answer changes the score shown at the end by that
    question alone: if the slot of the current question did not hold the
    correct index, choosing the correct option raises [correctAnswers] by
    one and any other option leaves it as it is; if it did, choosing
    another option lowers it by one. *)
Theorem answer_changes_score_by_its_question
    (q : QuizClosure) (k : Z) (question : Question) :
  quizData q !! currentQuestionIndex q = Some question →
  (currentQuestionIndex q < length (userAnswers q))%nat →
  let before := correctAnswers (results_of (results_loop q)) in
  let after := correctAnswers (results_of (results_loop (answered q k))) in
  let was :=
    Js.strict_eq_num (Js.get (userAnswers q) (currentQuestionIndex q))
                     (answerIndex question) in
  (after + (if was then 1 else 0))%nat =
  (before + (if decide (k = answerIndex question) then 1 else 0))%nat.
Proof.
  intros Hq Hc. cbn zeta. rewrite !results_loop_eq. unfold results_of.
  cbn [closure counted correctAnswers]. unfold Spec.correctCount, Spec.indexed.
  change (quizData (answered q k)) with (quizData q).
  unfold answered, Js.store. cbn [userAnswers with_answers].
  rewrite decide_True by done.
  pose proof (count_after_insert (userAnswers q) (currentQuestionIndex q)
                (Js.Number k) 0 (quizData q) question) as Hcount.
  rewrite Nat.sub_0_r in Hcount. specialize (Hcount ltac:(lia) Hq Hc).
  destruct (Js.strict_eq_num _ _) eqn:Hwas.
  - apply strict_eq_num_get in Hwas.
    rewrite decide_True in Hcount by done.
    repeat case_decide; simplify_eq; lia.
  - assert (¬ Spec.answered_correctly (userAnswers q)
                (currentQuestionIndex q, question)) as Hn.
    { intros H. apply strict_eq_num_get in H. cbn in H. congruence. }
    rewrite decide_False in Hcount by done.
    repeat case_decide; simplify_eq; lia.
Qed.

Lemma answer_changes_score_by_its_question_witness :
  let q := closure_of anatomy 2 [Js.Number 1; Js.Number 0; Js.Null] in
  let before := correctAnswers (results_of (results_loop q)) in
  let after := correctAnswers (results_of (results_loop (answered q 2))) in
  let was :=
    Js.strict_eq_num (Js.get (userAnswers q) (currentQuestionIndex q))
                     (answerIndex (question "q3" 2)) in
  (after + (if was then 1 else 0))%nat =
  (before +
   (if decide (2%Z = answerIndex (question "q3" 2)) then 1 else 0))%nat.
Proof.
  apply (answer_changes_score_by_its_question
           (closure_of anatomy 2 [Js.Number 1; Js.Number 0; Js.Null]) 2
           (question "q3" 2)).
  - reflexivity.
  - cbn. lia.
Defined.

End ResultsPageFacts.

(** ** Question pages: what the handlers leave on the page *)

Section QuestionPageFacts.

Implicit Types (q : QuizClosure) (app : App) (stack : list ViewState).

Lemma renderCurrentQuestion_page q app question :
  quizData q !! currentQuestionIndex q = Some question →
  renderCurrentQuestion q app =
  (Normal tt,
   {| navigationStack := navigationStack app ++ [quiz_state q];
      view := QuestionPage q (question_dom q question) |}).
Proof. intros Hq. by rewrite renderCurrentQuestion_eq, Hq. Qed.

Lemma assign_renderCurrentQuestion q app question :
  quizData q !! currentQuestionIndex q = Some question →
  (assign q ;; renderCurrentQuestion q ;; mret q) app =
  (Normal q,
   {| navigationStack := navigationStack app ++ [quiz_state q];
      view := QuestionPage q (question_dom q question) |}).
Proof.
  intros Hq. unfold assign, mbind, M_bind, getView, setInnerHTML, mret, M_ret.
  destruct app as [stack []]; cbn;
    rewrite (renderCurrentQuestion_page q _ question Hq); reflexivity.
Qed.

Lemma handleNext_advance_page q app :
  (currentQuestionIndex q + 1 < length (quizData q))%nat →
  ∃ question,
    quizData q !! (currentQuestionIndex q + 1)%nat = Some question ∧
    handleNext q app =
    (Normal (with_index q (currentQuestionIndex q + 1)),
     {| navigationStack := navigationStack app ++ [quiz_state q];
        view := QuestionPage (with_index q (currentQuestionIndex q + 1))
                  (question_dom (with_index q (currentQuestionIndex q + 1))
                     question) |}).
Proof.
  intros Hlt. unfold handleNext. rewrite decide_True by lia.
  destruct (lookup_lt_is_Some_2 (quizData q) (currentQuestionIndex q + 1) Hlt)
    as [question Hq].
  exists question. split; [done|].
  by rewrite (assign_renderCurrentQuestion _ _ question).
Qed.

Lemma handlePrev_back_page q app :
  (0 < currentQuestionIndex q)%nat →
  (currentQuestionIndex q ≤ length (quizData q))%nat →
  ∃ question,
    quizData q !! (currentQuestionIndex q - 1)%nat = Some question ∧
    handlePrev q app =
    (Normal (with_index q (currentQuestionIndex q - 1)),
     {| navigationStack := navigationStack app ++ [quiz_state q];
        view := QuestionPage (with_index q (currentQuestionIndex q - 1))
                  (question_dom (with_index q (currentQuestionIndex q - 1))
                     question) |}).
Proof.
  intros Hpos Hle. unfold handlePrev. rewrite decide_True by lia.
  assert (currentQuestionIndex q - 1 < length (quizData q))%nat as Hlt by lia.
  destruct (lookup_lt_is_Some_2 _ _ Hlt) as [question Hq].
  exists question. split; [done|].
  by rewrite (assign_renderCurrentQuestion _ _ question).
Qed.

(** The page after [handleAnswerSelection] on a question page showing
    [buttons] option buttons, by how the handler ends. *)
Lemma handleAnswerSelection_page q k stack q0 d question :
  quizData q !! currentQuestionIndex q = Some question →
  0 <= k < Z.of_nat (optionCount d) →
  handleAnswerSelection q k
    {| navigationStack := stack; view := QuestionPage q0 d |} =
  if decide (0 <= answerIndex question < Z.of_nat (optionCount d))
  then
    (Normal (answered q k),
     {| navigationStack := stack;
        view := QuestionPage (answered q k)
          {| optionCount := optionCount d; optionsDisabled := true;
             prevDisabled := prevDisabled d; explanationShown := true |} |})
  else
    (TypeError,
     {| navigationStack := stack;
        view := QuestionPage (answered q k)
          {| optionCount := optionCount d; optionsDisabled := true;
             prevDisabled := prevDisabled d;
             explanationShown := explanationShown d |} |}).
Proof.
  intros Hq Hk.
  unfold handleAnswerSelection, assign, optionButtons, disableOptions,
    showExplanation, markOption. fold (answered q k).
  unfold mbind, M_bind, mret, M_ret, throw, getView, setInnerHTML, prop. cbn.
  change (quizData (answered q k)) with (quizData q). rewrite Hq. cbn.
  rewrite !(decide_True (P := 0 <= k < _)) by done.
  case_bool_decide as Heq; cbn.
  - subst k. by rewrite decide_True by done.
  - by destruct (decide (0 <= answerIndex question < _)).
Qed.

End QuestionPageFacts.

(** ** The history under back navigation *)

Section HistoryFacts.

Import Sample.

Implicit Types (data : Database) (dataset : string → string)
  (q : QuizClosure) (app : App)
  (stack : list ViewState).

Lemma Inv_root_iff_empty data app :
  Inv data app → (view app = CourseGrid ↔ navigationStack app = []).
Proof.
  intros (_ & _ & Hpage). destruct app as [stack v]. cbn in *. split.
  - by intros ->.
  - intros ->. destruct v; cbn in Hpage; try done.
    + destruct Hpage as (_ & pre & Hpre).
      symmetry in Hpre. by apply app_eq_nil in Hpre as [_ ?].
    + destruct Hpage as (_ & pre & a & Hpre).
      symmetry in Hpre. by apply app_eq_nil in Hpre as [_ ?].
Qed.

Lemma Inv_handleBack_eq data app :
  Inv data app →
  ∃ page,
    rendered data (current (removelast (navigationStack app))) = Some page ∧
    handleBack data app =
    (Normal tt,
     {| navigationStack := removelast (navigationStack app); view := page |}).
Proof.
  intros (Hok & _ & _). destruct app as [stack v].
  apply handleBack_eq. by apply Forall_removelast.
Qed.

Lemma length_removelast_S {A} (l : list A) n :
  length l = S n → length (removelast l) = n.
Proof.
  destruct l as [|x l _] using rev_ind; [done|].
  rewrite removelast_last, length_app. cbn. lia.
Qed.

Lemma iter_back_to_root data n app :
  Inv data app → length (navigationStack app) = n →
  Nat.iter n (exec (handleBack data)) app =
  {| navigationStack := []; view := CourseGrid |}.
Proof.
  revert app. induction n as [|n IH]; intros app HI Hlen.
  - apply nil_length_inv in Hlen.
    pose proof (proj2 (Inv_root_iff_empty data app HI) Hlen) as Hview.
    destruct app as [stack v]. cbn in *. by subst.
  - rewrite Nat.iter_succ_r. apply IH.
    + destruct app as [stack v]. destruct HI as (Hok & Hbelow & _).
      by apply Inv_handleBack.
    + destruct (Inv_handleBack_eq data app HI) as (page & _ & Heq).
      unfold exec. rewrite Heq. cbn. by apply length_removelast_S.
Qed.

(** X4. In every reachable state [handleBack] returns without an error,
    takes exactly one entry off the stack (none off an empty one) and
    shows the page of the entry then on top, or the course list when
    the stack is left empty. *)
Theorem back_pops_one_entry
    (data : Database) (dataset : string → string) (app : App) :
  reachable data dataset app →
  ∃ page,
    handleBack data app =
      (Normal tt,
       {| navigationStack := removelast (navigationStack app);
          view := page |}) ∧
    rendered data (current (removelast (navigationStack app))) = Some page ∧
    (removelast (navigationStack app) = [] → page = CourseGrid).
Proof.
  intros Hreach. apply reachable_Inv in Hreach.
  destruct (Inv_handleBack_eq data app Hreach) as (page & Hpage & Heq).
  exists page. split_and!; [done..|].
  intros Hnil. rewrite Hnil in Hpage. cbn in Hpage. by simplify_eq.
Qed.

Lemma back_pops_one_entry_witness :
  let app := run db id (open_quiz "anatomy" ++ [ClickNext]) init in
  ∃ page,
    handleBack db app =
      (Normal tt,
       {| navigationStack := removelast (navigationStack app);
          view := page |}) ∧
    rendered db (current (removelast (navigationStack app))) = Some page ∧
    (removelast (navigationStack app) = [] → page = CourseGrid).
Proof.
  apply (back_pops_one_entry db id
           (run db id (open_quiz "anatomy" ++ [ClickNext]) init)).
  apply reachable_run. constructor.
Defined.

(** X5. From every reachable state, as many calls of [handleBack] as the
    stack has entries end on the course list with an empty stack: no
    entry is skipped and none is left behind. *)
Theorem back_reaches_course_list
    (data : Database) (dataset : string → string) (app : App) :
  reachable data dataset app →
  Nat.iter (length (navigationStack app)) (exec (handleBack data)) app =
  {| navigationStack := []; view := CourseGrid |}.
Proof.
  intros Hreach. apply iter_back_to_root; [|done].
  by apply (reachable_Inv data dataset).
Qed.

Lemma back_reaches_course_list_witness :
  let app := run db id (open_quiz "anatomy" ++ [ClickNext; ClickPrev]) init in
  Nat.iter (length (navigationStack app)) (exec (handleBack db)) app =
  {| navigationStack := []; view := CourseGrid |}.
Proof.
  apply (back_reaches_course_list db id
           (run db id (open_quiz "anatomy" ++ [ClickNext; ClickPrev]) init)).
  apply reachable_run. constructor.
Defined.

(** X6. In every reachable state the course list is on show exactly when
    the stack is empty. *)
Theorem course_list_iff_empty_stack
    (data : Database) (dataset : string → string) (app : App) :
  reachable data dataset app →
  (view app = CourseGrid ↔ navigationStack app = []).
Proof.
  intros Hreach. by apply (Inv_root_iff_empty data), (reachable_Inv data dataset).
Qed.

Lemma course_list_iff_empty_stack_witness :
  let app := run db id [ClickCard "gyn"; ClickBack] init in
  view app = CourseGrid ↔ navigationStack app = [].
Proof.
  apply (course_list_iff_empty_stack db id
           (run db id [ClickCard "gyn"; ClickBack] init)).
  apply reachable_run. constructor.
Defined.

(** X7. [renderView] is all or nothing: it either ends in a [TypeError]
    with the [app] object untouched, or shows the page of the state and
    pushes exactly that state (nothing for the root state). *)
Theorem renderView_all_or_nothing
    (data : Database) (state : ViewState) (app : App) :
  match renderView data state app with
  | (TypeError, app') => app' = app ∧ rendered data state = None
  | (Normal _, app') =>
      rendered data state = Some (view app') ∧
      navigationStack app' =
        navigationStack app ++
        (if decide (state = VCourses) then [] else [state])
  end.
Proof. rewrite renderView_eq. by destruct (rendered data state). Qed.

Lemma card_target_rendered data v i t :
  card_target v i = Some t → i ∈ card_ids data v →
  t ≠ VCourses ∧ is_Some (rendered data t).
Proof.
  intros Ht Hin. destruct v as [| |c|c s| | |]; simplify_eq/=.
  - split; [done|].
    apply list_elem_of_fmap in Hin as ([k course] & -> & Hin).
    apply elem_of_map_to_list in Hin. cbn. rewrite Hin. eauto.
  - split; [done|]. unfold lookup_subject.
    destruct (courses data !! c) as [course|]; cbn in *;
      [|by apply elem_of_nil in Hin].
    destruct (find_subject_is_Some _ _ Hin) as [subject ->]. eauto.
  - split; [done|]. unfold lookup_lesson, lookup_subject.
    destruct (courses data !! c) as [course|]; cbn in *;
      [|by apply elem_of_nil in Hin].
    destruct (find_subject s (subjects course)) as [subject|]; cbn in *;
      [|by apply elem_of_nil in Hin].
    destruct (find_lesson_is_Some _ _ Hin) as [les ->]. eauto.
Qed.

(** A click that a card listener receives with value [j] renders the state
    of [j]. *)
Lemma card_dispatch data dataset app j t :
  card_target (view app) j = Some t → j ∈ cards data dataset (view app) →
  dispatch data dataset (ClickCard j) app = exec (renderView data t) app.
Proof.
  intros Ht Hin. unfold dispatch.
  destruct (view app) as [| |c|c s| | |]; simplify_eq/=;
    by rewrite decide_True by done.
Qed.

Lemma card_target_not_root v j t : card_target v j = Some t → t ≠ VCourses.
Proof. destruct v; intros; by simplify_eq/=. Qed.

Lemma card_click data dataset app i t :
  card_target (view app) i = Some t →
  i ∈ card_ids data (view app) →
  dataset i = i →
  ∃ page,
    rendered data t = Some page ∧
    dispatch data dataset (ClickCard (dataset i)) app =
    {| navigationStack := navigationStack app ++ [t]; view := page |}.
Proof.
  intros Ht Hin Hsame.
  destruct (card_target_rendered data _ _ _ Ht Hin) as [Hne [page Hpage]].
  exists page. split; [done|].
  assert (dataset i ∈ cards data dataset (view app)) as Hcard.
  { apply list_elem_of_fmap. by exists i. }
  rewrite Hsame in *.
  rewrite (card_dispatch data dataset app i t Ht Hcard). unfold exec.
  rewrite renderView_eq, Hpage. cbn. by rewrite decide_False.
Qed.

(** X8. A click on a card of a grid whose id the browser reads back
    unchanged from its [data-*-id] attribute never fails: the id resolves
    ([find] returns the first entry with that id), the page of that id is
    shown and exactly its state is pushed. *)
Theorem card_opens_its_page
    (data : Database) (dataset : string → string) (app : App) (i : string)
    (t : ViewState) :
  card_target (view app) i = Some t →
  i ∈ card_ids data (view app) →
  dataset i = i →
  ∃ page,
    rendered data t = Some page ∧
    dispatch data dataset (ClickCard (dataset i)) app =
    {| navigationStack := navigationStack app ++ [t]; view := page |}.
Proof. apply card_click. Qed.

Lemma card_opens_its_page_witness :
  let app := run db id [ClickCard "gyn"; ClickCard "basics"] init in
  ∃ page,
    rendered db (VLesson "gyn" "basics" "cycle") = Some page ∧
    dispatch db id (ClickCard (id "cycle")) app =
    {| navigationStack :=
         navigationStack app ++ [VLesson "gyn" "basics" "cycle"];
       view := page |}.
Proof.
  apply (card_opens_its_page db id
           (run db id [ClickCard "gyn"; ClickCard "basics"] init) "cycle"
           (VLesson "gyn" "basics" "cycle")).
  - reflexivity.
  - vm_compute. apply list_elem_of_In. cbn. tauto.
  - reflexivity.
Defined.

Lemma rendered_current data app :
  Inv data app →
  match view app with
  | CourseGrid | SubjectGrid _ | LessonGrid _ _ | LessonPage _ _ _ =>
      rendered data (current (navigationStack app)) = Some (view app)
  | _ => True
  end.
Proof.
  intros (Hok & _ & Hpage). destruct app as [stack v]. cbn in *.
  destruct v as [| |c|c s|c s l| |]; try done.
  - rewrite Hpage. reflexivity.
  - unfold current. rewrite Hpage. cbn.
    apply last_Some_elem_of in Hpage. rewrite Forall_forall in Hok.
    destruct (Hok _ Hpage) as [_ [page Hr]]. cbn in Hr.
    by destruct (courses data !! c).
  - unfold current. rewrite Hpage. cbn.
    apply last_Some_elem_of in Hpage. rewrite Forall_forall in Hok.
    destruct (Hok _ Hpage) as [_ [page Hr]]. cbn in Hr.
    by destruct (lookup_subject data c s).
  - unfold current. rewrite Hpage. cbn.
    apply last_Some_elem_of in Hpage. rewrite Forall_forall in Hok.
    destruct (Hok _ Hpage) as [_ [page Hr]]. cbn in Hr.
    by destruct (lookup_lesson data c s l).
Qed.

(** Back from a page just pushed on a state whose page was the one of
    its top. *)
Lemma push_then_back data app t page :
  Inv data app →
  rendered data (current (navigationStack app)) = Some (view app) →
  handleBack data
    {| navigationStack := navigationStack app ++ [t]; view := page |} =
  (Normal tt, app).
Proof.
  intros (Hok & _ & _) Hcur. destruct app as [stack v]. cbn in *.
  destruct (handleBack_eq data (stack ++ [t]) page) as (page0 & Hpage & Heq).
  { by rewrite removelast_last. }
  rewrite removelast_last in *. rewrite Heq. unfold current in *.
  rewrite Hcur in Hpage. by simplify_eq.
Qed.

(** X9. On every reachable grid, opening a card whose id the browser
    reads back unchanged and going back is a round trip: the stack and
    the page are exactly those from before the click. *)
Theorem card_then_back_round_trip
    (data : Database) (dataset : string → string) (app : App) (i : string)
    (t : ViewState) :
  reachable data dataset app →
  card_target (view app) i = Some t →
  i ∈ card_ids data (view app) →
  dataset i = i →
  dispatch data dataset ClickBack
    (dispatch data dataset (ClickCard (dataset i)) app) = app.
Proof.
  intros Hreach Ht Hin Hsame. apply reachable_Inv in Hreach.
  destruct (card_click data dataset app i t Ht Hin Hsame)
    as (page & Hpage & ->).
  pose proof (rendered_current data app Hreach) as Hcur.
  assert (listener data dataset page ClickBack = Some (handleBack data)) as Hl.
  { destruct (view app) as [| |c|c s| | |]; simplify_eq/=.
    - by destruct (courses data !! i); simplify_eq/=.
    - by destruct (lookup_subject data c i); simplify_eq/=.
    - by destruct (lookup_lesson data c s i); simplify_eq/=. }
  unfold dispatch. cbn [view]. rewrite Hl. unfold exec.
  rewrite (push_then_back data app t page Hreach); [done|].
  by destruct (view app).
Qed.

Lemma card_then_back_round_trip_witness :
  let app := run db id [ClickCard "gyn"] init in
  dispatch db id ClickBack (dispatch db id (ClickCard (id "basics")) app) = app.
Proof.
  apply (card_then_back_round_trip db id (run db id [ClickCard "gyn"] init)
           "basics" (VLessons "gyn" "basics")).
  - apply reachable_run. constructor.
  - reflexivity.
  - vm_compute. apply list_elem_of_In. cbn. tauto.
  - reflexivity.
Defined.

(** A course key that holds a character reference is read back decoded:
    the card carries a string that is no key of the database, and the click
    on it ends in a [TypeError] on the course list, nothing pushed. *)
Lemma card_read_back_decoded :
  let data := {| courses := {[ "a&amp;b" := gynecology ]} |} in
  let dataset := λ s, if decide (s = "a&amp;b") then "a&b" else s in
  card_ids data CourseGrid = ["a&amp;b"] ∧
  cards data dataset CourseGrid = ["a&b"] ∧
  (renderSubjectList data "a&b" init).1 = TypeError ∧
  dispatch data dataset (ClickCard "a&b") init = init.
Proof. vm_compute. split_and!; done. Qed.

(** X10. On every reachable lesson page the lesson resolves.  If its quiz
    has no question, Test Yourself ends in a [TypeError] and changes
    nothing; otherwise it shows the first question with a new closure,
    pushes the quiz state, and Back from there restores the lesson page
    and the stack as they were. *)
Theorem test_yourself_opens_or_fails
    (data : Database) (dataset : string → string) (app : App) (c s l : string) :
  reachable data dataset app →
  view app = LessonPage c s l →
  ∃ les,
    lookup_lesson data c s l = Some les ∧
    match head (quiz les) with
    | None =>
        (renderQuiz data c s l app).1 = TypeError ∧
        dispatch data dataset ClickTest app = app
    | Some question =>
        dispatch data dataset ClickTest app =
          {| navigationStack := navigationStack app ++ [VQuiz c s l];
             view := first_question c s l les question |} ∧
        dispatch data dataset ClickBack (dispatch data dataset ClickTest app) = app
    end.
Proof.
  intros Hreach Hview. apply reachable_Inv in Hreach.
  pose proof (rendered_current data app Hreach) as Hcur.
  rewrite Hview in Hcur.
  pose proof Hreach as (Hok & _ & Hpage). rewrite Hview in Hpage.
  cbn in Hpage. apply last_Some_elem_of in Hpage.
  rewrite Forall_forall in Hok. destruct (Hok _ Hpage) as [_ [page Hr]].
  cbn in Hr. destruct (lookup_lesson data c s l) as [les|] eqn:Hl; [|done].
  exists les. split; [done|].
  assert (dispatch data dataset ClickTest app =
          exec (renderView data (VQuiz c s l)) app) as ->.
  { unfold dispatch. by rewrite Hview. }
  change (renderQuiz data c s l) with (renderView data (VQuiz c s l)).
  unfold exec. rewrite renderView_eq. cbn [rendered]. rewrite Hl. cbn.
  destruct (head (quiz les)) as [question|]; cbn; [|done].
  split; [done|]. unfold dispatch. cbn [view first_question listener].
  unfold exec.
  rewrite (push_then_back data app (VQuiz c s l) _ Hreach); [done|].
  by rewrite Hview.
Qed.

Lemma test_yourself_opens_or_fails_witness :
  let app := run db id [ClickCard "gyn"; ClickCard "basics"; ClickCard "cycle"]
               init in
  ∃ les,
    lookup_lesson db "gyn" "basics" "cycle" = Some les ∧
    match head (quiz les) with
    | None =>
        (renderQuiz db "gyn" "basics" "cycle" app).1 = TypeError ∧
        dispatch db id ClickTest app = app
    | Some question =>
        dispatch db id ClickTest app =
          {| navigationStack :=
               navigationStack app ++ [VQuiz "gyn" "basics" "cycle"];
             view := first_question "gyn" "basics" "cycle" les question |} ∧
        dispatch db id ClickBack (dispatch db id ClickTest app) = app
    end.
Proof.
  apply (test_yourself_opens_or_fails db id
           (run db id [ClickCard "gyn"; ClickCard "basics"; ClickCard "cycle"]
              init) "gyn" "basics" "cycle").
  - apply reachable_run. constructor.
  - vm_compute. reflexivity.
Defined.

(** X11. Back from a reachable question page past the first question
    does not return to the question before: it takes one entry off the
    stack and renders the quiz state again, which shows the first
    question with a new closure (index 0, every slot [null]). *)
Theorem back_from_later_question_restarts
    (data : Database) (dataset : string → string)
    (app : App) (q : QuizClosure) (d : QuestionDom) :
  reachable data dataset app →
  view app = QuestionPage q d →
  (0 < currentQuestionIndex q)%nat →
  ∃ question,
    head (quizData q) = Some question ∧
    dispatch data dataset ClickBack app =
    {| navigationStack := removelast (navigationStack app);
       view := first_question (courseId q) (subjectId q) (lessonId q)
                 (lesson q) question |} ∧
    last (removelast (navigationStack app)) = Some (quiz_state q).
Proof.
  intros Hreach Hview Hpos. apply reachable_Inv in Hreach.
  destruct app as [stack v]. cbn in Hview. subst v.
  destruct (question_page_below data _ _ _ Hreach) as (pre & a & -> & Ha).
  destruct Ha as [[_ H0]|[-> _]]; [lia|].
  pose proof Hreach as (_ & _ & Hq & _). cbn in Hq.
  destruct (closure_ok_rendered data q Hq) as (question & Hhead & Hr).
  exists question. split; [done|].
  destruct (Inv_handleBack_eq data _ Hreach) as (page & Hpage & Heq).
  cbn [navigationStack] in *.
  replace (pre ++ [quiz_state q; quiz_state q])
    with ((pre ++ [quiz_state q]) ++ [quiz_state q]) in *
    by (by rewrite <- app_assoc).
  rewrite removelast_last in *. unfold current in Hpage.
  rewrite last_snoc in *. cbn [default id] in Hpage. rewrite Hr in Hpage.
  injection Hpage as <-. split; [|done].
  unfold dispatch. cbn [view listener]. unfold exec. by rewrite Heq.
Qed.

Lemma back_from_later_question_restarts_witness :
  let app := run db id (open_quiz "anatomy" ++ [ClickOption 1; ClickNext]) init in
  let q := closure_of anatomy 1 [Js.Number 1; Js.Null; Js.Null] in
  ∃ question,
    head (quizData q) = Some question ∧
    dispatch db id ClickBack app =
    {| navigationStack := removelast (navigationStack app);
       view := first_question (courseId q) (subjectId q) (lessonId q)
                 (lesson q) question |} ∧
    last (removelast (navigationStack app)) = Some (quiz_state q).
Proof.
  apply (back_from_later_question_restarts db id
           (run db id (open_quiz "anatomy" ++ [ClickOption 1; ClickNext]) init)
           (closure_of anatomy 1 [Js.Number 1; Js.Null; Js.Null])
           {| optionCount := 3; optionsDisabled := false;
              prevDisabled := false; explanationShown := false |}).
  - apply reachable_run. constructor.
  - vm_compute. reflexivity.
  - cbn. lia.
Defined.

End HistoryFacts.

(** ** The shape of the history *)

Section ChainFacts.

Import Sample.

Implicit Types (data : Database) (dataset : string → string)
  (q : QuizClosure) (app : App)
  (stack : list ViewState).

Lemma results_page_below data stack q r :
  Inv data {| navigationStack := stack; view := ResultsPage q r |} →
  ∃ pre a,
    stack = pre ++ [a; quiz_state q; a] ∧
    (a = lesson_state q ∨ a = quiz_state q).
Proof.
  intros (_ & Hbelow & _ & pre & a & Hstack).
  cbn [navigationStack view] in *. subst stack.
  exists pre, a. split; [done|].
  assert (quiz_below data ((pre ++ [a]) ++ [quiz_state q])) as Hb.
  { apply (quiz_below_prefix data _ [a]). by rewrite <- !app_assoc. }
  destruct (quiz_below_top data _ _ _ _ Hb) as (pre' & t & Heq & Ht).
  apply app_inj_tail in Heq as [_ <-]. destruct Ht as [->|[-> _]]; eauto.
Qed.

(** Every listener leaves the stack as it is, one entry shorter, or one
    entry longer, and then by an entry that may lie on the old top. *)
Lemma dispatch_stack data dataset e app :
  Inv data app →
  navigationStack (dispatch data dataset e app) = navigationStack app ∨
  navigationStack (dispatch data dataset e app) = removelast (navigationStack app) ∨
  ∃ x, navigationStack (dispatch data dataset e app) = navigationStack app ++ [x] ∧
       follows (navigationStack app) x.
Proof.
  intros HI.
  assert (listener data dataset (view app) e = Some (handleBack data) →
          navigationStack (dispatch data dataset e app) =
          removelast (navigationStack app)) as Hback.
  { intros Hl. unfold dispatch, exec. rewrite Hl.
    destruct (Inv_handleBack_eq data app HI) as (page & _ & ->). done. }
  destruct e as [i| | |i| | |].
  - (* a card *)
    destruct (decide (i ∈ cards data dataset (view app))) as [Hin|Hout].
    + destruct (card_target (view app) i) as [t|] eqn:Ht.
      * rewrite (card_dispatch data dataset app i t Ht Hin). unfold exec.
        rewrite renderView_eq.
        destruct (rendered data t) as [page|]; [|by left].
        cbn. rewrite decide_False by (by eapply card_target_not_root).
        right. right. exists t. split; [done|].
        destruct HI as (_ & _ & Hpage). unfold follows.
        destruct (view app) as [| |c|c s| | |]; simplify_eq/=;
          rewrite ?Hpage; cbn; eauto.
      * left. unfold dispatch. by destruct (view app).
    + left. unfold dispatch.
      destruct (view app); cbn [listener]; try done;
        by rewrite decide_False by done.
  - (* Back *)
    destruct (view app) eqn:Hv; try (right; left; apply Hback; by rewrite ?Hv);
      left; unfold dispatch; by rewrite Hv.
  - (* Test Yourself *)
    destruct app as [stack v]. destruct v as [| | | |c s l| |];
      try (by left).
    unfold dispatch. cbn [view listener]. unfold exec.
    change (renderQuiz data c s l) with (renderView data (VQuiz c s l)).
    rewrite renderView_eq.
    destruct (rendered data (VQuiz c s l)); [|by left].
    right. right. exists (VQuiz c s l). split; [done|].
    destruct HI as (_ & _ & Hpage). cbn in Hpage. unfold follows.
    cbn [navigationStack]. rewrite Hpage. cbn. eauto.
  - (* an option button *)
    left. destruct app as [stack v]. destruct v as [| | | | |q d|];
      try done.
    unfold dispatch. cbn [view listener]. case_decide; [|done].
    destruct (handleAnswerSelection_question q (Z.of_nat i) stack q d)
      as (c & d' & Heq & _).
    unfold exec, mbind, M_bind. rewrite Heq. by destruct c.
  - (* Next, or Finish Quiz *)
    destruct app as [stack v]. destruct v as [| | | | |q d|];
      try (by left).
    destruct (question_page_below data _ _ _ HI) as (pre & a & -> & Ha).
    right. right. unfold dispatch. cbn [view listener].
    unfold exec, mbind, M_bind.
    destruct (decide (currentQuestionIndex q + 1 < length (quizData q))%nat)
      as [Hlt|Hge].
    + destruct (handleNext_advance q
                  {| navigationStack := pre ++ [a; quiz_state q];
                     view := QuestionPage q d |} Hlt) as [d' ->].
      exists (quiz_state q). split; [done|]. unfold follows.
      cbn [navigationStack]. rewrite last_app. cbn. eauto.
    + rewrite handleNext_finish, renderResults_eq by done.
      cbn [navigationStack snd]. rewrite index_below_top. cbn [option_list].
      exists a. split; [done|]. unfold follows. rewrite last_app. cbn.
      destruct Ha as [[-> _]|[-> _]]; cbn; eauto.
  - (* Previous *)
    destruct app as [stack v]. destruct v as [| | | | |q d|];
      try (by left).
    unfold dispatch. cbn [view listener].
    destruct (prevDisabled d); [by left|].
    unfold exec, mbind, M_bind.
    destruct (decide (currentQuestionIndex q = 0%nat)) as [H0|Hpos].
    { left. by rewrite handlePrev_first. }
    pose proof HI as (_ & _ & (_ & Hi & _) & pre & Hstack).
    cbn [navigationStack view] in *.
    destruct (handlePrev_back q
                {| navigationStack := stack; view := QuestionPage q d |})
      as [d' ->]; [lia..|].
    right. right. exists (quiz_state q). split; [done|]. unfold follows.
    cbn [navigationStack].
    rewrite Hstack, replicate_S_end, app_assoc, last_snoc. cbn. eauto.
  - (* Retry Quiz *)
    destruct app as [stack v]. destruct v as [| | | | | |q r];
      try (by left).
    destruct (results_page_below data _ _ _ HI) as (pre & a & -> & Ha).
    unfold dispatch. cbn [view listener]. unfold exec.
    change (renderQuiz data (courseId q) (subjectId q) (lessonId q))
      with (renderView data (quiz_state q)).
    rewrite renderView_eq.
    destruct (rendered data (quiz_state q)); [|by left].
    right. right. exists (quiz_state q). split; [done|]. unfold follows.
    cbn [navigationStack]. rewrite last_app. cbn.
    destruct Ha as [->| ->]; cbn; eauto.
Qed.

Lemma chain_prefix stack rest : chain (stack ++ rest) → chain stack.
Proof.
  intros [H0 Hstep]. split.
  - intros s Hs. apply H0. rewrite lookup_app_l; [done|].
    by eapply lookup_lt_Some.
  - intros i a b Ha Hb. apply (Hstep i).
    + rewrite lookup_app_l; [done|]. by eapply lookup_lt_Some.
    + rewrite lookup_app_l; [done|]. by eapply lookup_lt_Some.
Qed.

Lemma chain_removelast stack : chain stack → chain (removelast stack).
Proof.
  destruct stack as [|x l _] using rev_ind; [done|].
  rewrite removelast_last. apply chain_prefix.
Qed.

Lemma chain_snoc stack x : chain stack → follows stack x → chain (stack ++ [x]).
Proof.
  intros [H0 Hstep] Hx. unfold follows in Hx.
  destruct stack as [|t pre _] using rev_ind.
  - cbn in Hx. split.
    + intros s Hs. cbn in Hs. by simplify_eq.
    + intros i a b Ha Hb. by destruct i.
  - rewrite last_snoc in Hx. split.
    + intros s Hs. apply H0. rewrite lookup_app_l in Hs; [done|].
      rewrite length_app. cbn. lia.
    + intros i a b Ha Hb.
      apply lookup_snoc_Some in Hb as [[Hlt Hb]|[Hi <-]].
      * apply (Hstep i); [|done]. rewrite lookup_app_l in Ha; [done|lia].
      * rewrite length_app in Hi. cbn in Hi.
        assert (i = length pre) as -> by lia.
        rewrite <- app_assoc in Ha. cbn in Ha.
        rewrite list_lookup_middle in Ha by done. by simplify_eq.
Qed.

(** X12. No click moves the history by more than one entry: after any
    event in a reachable state the stack is unchanged, one entry shorter,
    or one entry longer. *)
Theorem event_moves_stack_by_one
    (data : Database) (dataset : string → string) (e : Event) (app : App) :
  reachable data dataset app →
  navigationStack (dispatch data dataset e app) = navigationStack app ∨
  navigationStack (dispatch data dataset e app) = removelast (navigationStack app) ∨
  ∃ x, navigationStack (dispatch data dataset e app) = navigationStack app ++ [x].
Proof.
  intros Hreach. apply reachable_Inv in Hreach.
  destruct (dispatch_stack data dataset e app Hreach) as [?|[?|(x & ? & _)]]; eauto.
Qed.

Lemma event_moves_stack_by_one_witness :
  let app := run db id (open_quiz "cycle") init in
  navigationStack (dispatch db id ClickNext app) = navigationStack app ∨
  navigationStack (dispatch db id ClickNext app) =
    removelast (navigationStack app) ∨
  ∃ x, navigationStack (dispatch db id ClickNext app) = navigationStack app ++ [x].
Proof.
  apply (event_moves_stack_by_one db id ClickNext (run db id (open_quiz "cycle") init)).
  apply reachable_run. constructor.
Defined.

(** X13. In every reachable state the history is a chain: its bottom
    entry is a subject list, a lesson list lies on the subject list of its
    course, a lesson entry on the lesson list of its subject or on a quiz
    entry of the same lesson, and a quiz entry on the lesson entry or on
    another quiz entry of the same lesson. *)
Theorem history_is_a_chain
    (data : Database) (dataset : string → string) (app : App) :
  reachable data dataset app → chain (navigationStack app).
Proof.
  induction 1 as [|e app Hreach IH].
  - split; [intros s Hs|intros i a b Ha]; done.
  - apply reachable_Inv in Hreach.
    destruct (dispatch_stack data dataset e app Hreach) as [->|[->|(x & -> & Hx)]].
    + done.
    + by apply chain_removelast.
    + by apply chain_snoc.
Qed.

Lemma history_is_a_chain_witness :
  chain (navigationStack
           (run db id (open_quiz "cycle" ++ [ClickNext; ClickRetry; ClickBack])
              init)).
Proof.
  apply (history_is_a_chain db id
           (run db id (open_quiz "cycle" ++ [ClickNext; ClickRetry; ClickBack])
              init)).
  apply reachable_run. constructor.
Defined.

End ChainFacts.

(** ** The controls of a question page *)

Section ControlFacts.

Import Sample.

Implicit Types (data : Database) (dataset : string → string)
  (q : QuizClosure) (app : App)
  (stack : list ViewState).

Lemma dom_ok_rendered data t q d :
  rendered data t = Some (QuestionPage q d) → dom_ok q d.
Proof.
  destruct t as [|c|c s|c s l|c s l]; cbn; intros Hr; [done|..].
  - by destruct (courses data !! c).
  - by destruct (lookup_subject data c s).
  - by destruct (lookup_lesson data c s l).
  - destruct (lookup_lesson data c s l) as [les|]; [|done]. cbn in Hr.
    destruct (head (quiz les)) as [question|] eqn:Hhead; [|done].
    cbn in Hr. unfold first_question in Hr. injection Hr as <- <-.
    split_and!; cbn; [|done|done].
    exists question. split; [|done]. unfold quizData. cbn.
    by rewrite <- head_lookup.
Qed.

Lemma dom_ok_question_dom q question :
  quizData q !! currentQuestionIndex q = Some question →
  dom_ok q (question_dom q question).
Proof. intros Hq. split_and!; cbn; [eauto|done|done]. Qed.

Lemma page_dom_ok_dispatch data dataset e app :
  Inv data app → page_dom_ok app → page_dom_ok (dispatch data dataset e app).
Proof.
  intros HI Hdom.
  assert (∀ t, page_dom_ok (exec (renderView data t) app)) as Hrender.
  { intros t q1 d1. unfold exec. rewrite renderView_eq.
    destruct (rendered data t) as [page|] eqn:Hr; cbn; [|apply Hdom].
    intros ->. by eapply dom_ok_rendered. }
  destruct e as [i| | |i| | |].
  - destruct (decide (i ∈ cards data dataset (view app))) as [Hin|Hout].
    + destruct (card_target (view app) i) as [t|] eqn:Ht.
      * by rewrite (card_dispatch data dataset app i t Ht Hin).
      * unfold dispatch. by destruct (view app).
    + unfold dispatch.
      destruct (view app); cbn [listener]; try done;
        by rewrite decide_False by done.
  - assert (page_dom_ok (exec (handleBack data) app)) as Hback.
    { intros q1 d1. unfold exec.
      destruct (Inv_handleBack_eq data app HI) as (page & Hr & ->). cbn.
      intros ->. by eapply dom_ok_rendered. }
    unfold dispatch. by destruct (view app).
  - unfold dispatch. destruct (view app) as [| | | |c s l| |]; try done.
    apply (Hrender (VQuiz c s l)).
  - destruct app as [stack v]. unfold dispatch. cbn [view].
    destruct v as [| | | | |q d|]; try done. cbn [listener].
    case_decide as Hi; [|done]. destruct Hi as [Hi Hen].
    destruct (Hdom q d eq_refl) as ((question & Hq & Hcount) & Hprev & Hexp).
    unfold exec, mbind, M_bind.
    rewrite (handleAnswerSelection_page q (Z.of_nat i) stack q d question)
      by (done || lia).
    intros q1 d1.
    destruct (decide _); cbn; intros [= <- <-];
      (split_and!; cbn; [by exists question|done|done]).
  - destruct app as [stack v]. unfold dispatch. cbn [view].
    destruct v as [| | | | |q d|]; try done. cbn [listener].
    unfold exec, mbind, M_bind.
    destruct (decide (currentQuestionIndex q + 1 < length (quizData q))%nat)
      as [Hlt|Hge].
    + destruct (handleNext_advance_page q
                  {| navigationStack := stack; view := QuestionPage q d |} Hlt)
        as (question & Hq & ->).
      intros q1 d1. cbn. intros [= <- <-]. by apply dom_ok_question_dom.
    + rewrite handleNext_finish, renderResults_eq by done. by intros q1 d1.
  - destruct app as [stack v]. unfold dispatch. cbn [view].
    destruct v as [| | | | |q d|]; try done. cbn [listener].
    destruct (prevDisabled d); [done|]. unfold exec, mbind, M_bind.
    destruct (decide (currentQuestionIndex q = 0%nat)) as [H0|Hpos].
    { by rewrite handlePrev_first. }
    pose proof HI as (_ & _ & (_ & Hi & _) & _). cbn [view] in Hi.
    destruct (handlePrev_back_page q
                {| navigationStack := stack; view := QuestionPage q d |})
      as (question & Hq & ->); [lia..|].
    intros q1 d1. cbn. intros [= <- <-]. by apply dom_ok_question_dom.
  - unfold dispatch. destruct (view app) as [| | | | | |q r]; try done.
    apply (Hrender (quiz_state q)).
Qed.

Lemma reachable_dom_ok data dataset app : reachable data dataset app → page_dom_ok app.
Proof.
  induction 1 as [|e app Hreach IH]; [by intros q d|].
  apply page_dom_ok_dispatch; [by apply (reachable_Inv data dataset)|done].
Qed.

(** X14. On every reachable question page there is one option button
    per option of the current question, Previous is disabled exactly on
    the first question, and the explanation is visible only while the
    option buttons are disabled. *)
Theorem question_page_controls
    (data : Database) (dataset : string → string)
    (app : App) (q : QuizClosure) (d : QuestionDom) :
  reachable data dataset app →
  view app = QuestionPage q d →
  (∃ question,
     quizData q !! currentQuestionIndex q = Some question ∧
     optionCount d = length (options question)) ∧
  (prevDisabled d = true ↔ currentQuestionIndex q = 0%nat) ∧
  (explanationShown d = true → optionsDisabled d = true).
Proof.
  intros Hreach Hview.
  destruct (reachable_dom_ok data dataset app Hreach q d Hview) as (Hq & Hprev & Hexp).
  split_and!; [done| |done].
  rewrite Hprev. apply bool_decide_eq_true.
Qed.

Lemma question_page_controls_witness :
  let app := run db id (open_quiz "anatomy" ++ [ClickNext; ClickOption 2]) init in
  let q := closure_of anatomy 1 [Js.Null; Js.Number 2; Js.Null] in
  let d := {| optionCount := 3; optionsDisabled := true;
              prevDisabled := false; explanationShown := true |} in
  (∃ question,
     quizData q !! currentQuestionIndex q = Some question ∧
     optionCount d = length (options question)) ∧
  (prevDisabled d = true ↔ currentQuestionIndex q = 0%nat) ∧
  (explanationShown d = true → optionsDisabled d = true).
Proof.
  apply (question_page_controls db id
           (run db id (open_quiz "anatomy" ++ [ClickNext; ClickOption 2]) init)).
  - apply reachable_run. constructor.
  - vm_compute. reflexivity.
Defined.

Lemma answered_slots q k :
  (currentQuestionIndex q < length (userAnswers q))%nat →
  Js.get (userAnswers (answered q k)) (currentQuestionIndex q) = Js.Number k ∧
  (∀ j, j ≠ currentQuestionIndex q →
        Js.get (userAnswers (answered q k)) j = Js.get (userAnswers q) j) ∧
  length (userAnswers (answered q k)) = length (userAnswers q).
Proof.
  intros Hc. unfold answered, Js.store, Js.get. cbn [userAnswers with_answers].
  rewrite decide_True by done. split_and!.
  - by rewrite list_lookup_insert_eq.
  - intros j Hj. by rewrite list_lookup_insert_ne.
  - apply length_insert.
Qed.

(** X15. On a reachable question page whose question has a valid
    [answerIndex], a click on an enabled option returns normally: the
    chosen index is stored in the slot of the current question and in no
    other slot, the option buttons are disabled, the explanation is shown,
    and the stack and the question index stay as they are. *)
Theorem option_click_records_answer
    (data : Database) (dataset : string → string)
    (app : App) (q : QuizClosure) (d : QuestionDom)
    (i : nat) (question : Question) :
  reachable data dataset app →
  view app = QuestionPage q d →
  (i < optionCount d)%nat →
  optionsDisabled d = false →
  quizData q !! currentQuestionIndex q = Some question →
  0 <= answerIndex question < Z.of_nat (length (options question)) →
  let q' := answered q (Z.of_nat i) in
  dispatch data dataset (ClickOption i) app =
    {| navigationStack := navigationStack app;
       view := QuestionPage q'
         {| optionCount := optionCount d; optionsDisabled := true;
            prevDisabled := prevDisabled d; explanationShown := true |} |} ∧
  Js.get (userAnswers q') (currentQuestionIndex q) = Js.Number (Z.of_nat i) ∧
  (∀ j, j ≠ currentQuestionIndex q →
        Js.get (userAnswers q') j = Js.get (userAnswers q) j) ∧
  length (userAnswers q') = length (userAnswers q) ∧
  currentQuestionIndex q' = currentQuestionIndex q.
Proof.
  intros Hreach Hview Hi Hen Hq Hvalid.
  destruct (reachable_dom_ok data dataset app Hreach q d Hview)
    as ((question' & Hq' & Hcount) & _ & _).
  rewrite Hq in Hq'. injection Hq' as <-.
  apply reachable_Inv in Hreach as (_ & _ & Hpage).
  rewrite Hview in Hpage. destruct Hpage as [(_ & Hc & Hlen) _].
  destruct app as [stack v]. cbn in Hview. subst v. cbn zeta.
  split; [|split_and!; [apply answered_slots; lia..|done]].
  unfold dispatch. cbn [view listener]. rewrite decide_True by done.
  unfold exec, mbind, M_bind.
  rewrite (handleAnswerSelection_page q (Z.of_nat i) stack q d question)
    by (done || lia).
  by rewrite decide_True by lia.
Qed.

Lemma option_click_records_answer_witness :
  let app := run db id (open_quiz "anatomy") init in
  let q := newQuiz "gyn" "basics" "anatomy" anatomy in
  let d := {| optionCount := 3; optionsDisabled := false;
              prevDisabled := true; explanationShown := false |} in
  let q' := answered q (Z.of_nat 2) in
  dispatch db id (ClickOption 2) app =
    {| navigationStack := navigationStack app;
       view := QuestionPage q'
         {| optionCount := optionCount d; optionsDisabled := true;
            prevDisabled := prevDisabled d; explanationShown := true |} |} ∧
  Js.get (userAnswers q') (currentQuestionIndex q) = Js.Number (Z.of_nat 2) ∧
  (∀ j, j ≠ currentQuestionIndex q →
        Js.get (userAnswers q') j = Js.get (userAnswers q) j) ∧
  length (userAnswers q') = length (userAnswers q) ∧
  currentQuestionIndex q' = currentQuestionIndex q.
Proof.
  apply (option_click_records_answer db id (run db id (open_quiz "anatomy") init)
           (newQuiz "gyn" "basics" "anatomy" anatomy)
           {| optionCount := 3; optionsDisabled := false;
              prevDisabled := true; explanationShown := false |}
           2 (question "q1" 1)).
  - apply reachable_run. constructor.
  - vm_compute. reflexivity.
  - cbn. lia.
  - reflexivity.
  - reflexivity.
  - cbn. lia.
Defined.

(** X16. When the [answerIndex] of the current question names no option,
    a click on an enabled option of a reachable question page ends in a
    [TypeError] at [options[question.answerIndex].classList]: the answer
    is stored and the buttons are disabled before, the explanation never
    appears, and the stack is unchanged. *)
Theorem option_click_with_bad_answerIndex
    (data : Database) (dataset : string → string)
    (app : App) (q : QuizClosure) (d : QuestionDom)
    (i : nat) (question : Question) :
  reachable data dataset app →
  view app = QuestionPage q d →
  (i < optionCount d)%nat →
  optionsDisabled d = false →
  quizData q !! currentQuestionIndex q = Some question →
  ¬ (0 <= answerIndex question < Z.of_nat (length (options question))) →
  (handleAnswerSelection q (Z.of_nat i) app).1 = TypeError ∧
  dispatch data dataset (ClickOption i) app =
    {| navigationStack := navigationStack app;
       view := QuestionPage (answered q (Z.of_nat i))
         {| optionCount := optionCount d; optionsDisabled := true;
            prevDisabled := prevDisabled d; explanationShown := false |} |} ∧
  Js.get (userAnswers (answered q (Z.of_nat i))) (currentQuestionIndex q) =
    Js.Number (Z.of_nat i).
Proof.
  intros Hreach Hview Hi Hen Hq Hbad.
  destruct (reachable_dom_ok data dataset app Hreach q d Hview)
    as ((question' & Hq' & Hcount) & _ & Hexp).
  rewrite Hq in Hq'. injection Hq' as <-.
  assert (explanationShown d = false) as Hhidden.
  { destruct (explanationShown d); [|done]. rewrite Hexp in Hen; done. }
  apply reachable_Inv in Hreach as (_ & _ & Hpage).
  rewrite Hview in Hpage. destruct Hpage as [(_ & Hc & Hlen) _].
  destruct app as [stack v]. cbn in Hview. subst v.
  pose proof (handleAnswerSelection_page q (Z.of_nat i) stack q d question
                Hq ltac:(lia)) as Heq.
  rewrite decide_False in Heq by lia. rewrite Hhidden in Heq.
  split_and!.
  - by rewrite Heq.
  - unfold dispatch. cbn [view listener]. rewrite decide_True by done.
    unfold exec, mbind, M_bind. by rewrite Heq.
  - apply answered_slots. lia.
Qed.

Lemma option_click_with_bad_answerIndex_witness :
  let app := run Defective.db id (Defective.open_lesson "broken" ++ [ClickTest])
               init in
  let q := newQuiz "obs" "labour" "broken" Defective.broken in
  let d := {| optionCount := 3; optionsDisabled := false;
              prevDisabled := true; explanationShown := false |} in
  (handleAnswerSelection q (Z.of_nat 0) app).1 = TypeError ∧
  dispatch Defective.db id (ClickOption 0) app =
    {| navigationStack := navigationStack app;
       view := QuestionPage (answered q (Z.of_nat 0))
         {| optionCount := optionCount d; optionsDisabled := true;
            prevDisabled := prevDisabled d; explanationShown := false |} |} ∧
  Js.get (userAnswers (answered q (Z.of_nat 0))) (currentQuestionIndex q) =
    Js.Number (Z.of_nat 0).
Proof.
  apply (option_click_with_bad_answerIndex Defective.db id
           (run Defective.db id (Defective.open_lesson "broken" ++ [ClickTest])
              init)
           (newQuiz "obs" "labour" "broken" Defective.broken)
           {| optionCount := 3; optionsDisabled := false;
              prevDisabled := true; explanationShown := false |}
           0 {| stem := "which"; options := ["a"; "b"; "c"];
                answerIndex := 5; explanation := "none" |}).
  - apply reachable_run. constructor.
  - vm_compute. reflexivity.
  - cbn. lia.
  - reflexivity.
  - reflexivity.
  - cbn. lia.
Defined.

End ControlFacts.

(** ** Moving between questions *)

Section QuestionNavigation.

Import Sample.

Implicit Types (data : Database) (dataset : string → string)
  (q : QuizClosure) (app : App).

(** X17. On every reachable question page the label of the Next button
    tells what a click on it does: labelled [Finish Quiz] it shows the
    results of the same closure, labelled [Next] it shows the question
    after the current one. *)
Theorem next_label_matches_click
    (data : Database) (dataset : string → string)
    (app : App) (q : QuizClosure) (d : QuestionDom) :
  reachable data dataset app →
  view app = QuestionPage q d →
  (nextButtonLabel q = "Finish Quiz" ∧
   ∃ r, view (dispatch data dataset ClickNext app) = ResultsPage q r) ∨
  (nextButtonLabel q = "Next" ∧
   ∃ d', view (dispatch data dataset ClickNext app) =
         QuestionPage (with_index q (currentQuestionIndex q + 1)) d').
Proof.
  intros Hreach Hview. apply reachable_Inv in Hreach as (_ & _ & Hpage).
  rewrite Hview in Hpage. destruct Hpage as [(_ & Hc & _) _].
  unfold dispatch. rewrite Hview. cbn [listener].
  unfold exec, mbind, M_bind, nextButtonLabel.
  destruct (decide (Z.of_nat (currentQuestionIndex q) =
                    Z.of_nat (length (quizData q)) - 1)) as [Hlast|Hmore].
  - left. split; [done|].
    rewrite handleNext_finish, renderResults_eq by lia. eauto.
  - right. split; [done|].
    destruct (handleNext_advance q app) as [d' ->]; [lia|]. eauto.
Qed.

Lemma next_label_matches_click_witness :
  let app := run db id (open_quiz "anatomy" ++ [ClickNext; ClickNext]) init in
  let q := closure_of anatomy 2 [Js.Null; Js.Null; Js.Null] in
  (nextButtonLabel q = "Finish Quiz" ∧
   ∃ r, view (dispatch db id ClickNext app) = ResultsPage q r) ∨
  (nextButtonLabel q = "Next" ∧
   ∃ d', view (dispatch db id ClickNext app) =
         QuestionPage (with_index q (currentQuestionIndex q + 1)) d').
Proof.
  apply (next_label_matches_click db id
           (run db id (open_quiz "anatomy" ++ [ClickNext; ClickNext]) init)
           (closure_of anatomy 2 [Js.Null; Js.Null; Js.Null])
           {| optionCount := 3; optionsDisabled := false;
              prevDisabled := false; explanationShown := false |}).
  - apply reachable_run. constructor.
  - vm_compute. reflexivity.
Defined.

Lemma with_index_back q :
  with_index (with_index q (currentQuestionIndex q + 1))
    (currentQuestionIndex (with_index q (currentQuestionIndex q + 1)) - 1) = q.
Proof.
  destruct q as [c s l les i a]. unfold with_index. cbn. f_equal. lia.
Qed.

(** X18. On a question page that is not the last one, Next followed by
    Previous shows the same question with the closure as it was, recorded
    answers included, but freshly rendered: the option buttons are enabled
    again and the explanation is hidden; the stack has two more quiz
    entries. *)
Theorem next_then_previous_rerenders
    (data : Database) (dataset : string → string)
    (app : App) (q : QuizClosure) (d : QuestionDom) :
  view app = QuestionPage q d →
  (currentQuestionIndex q + 1 < length (quizData q))%nat →
  ∃ question,
    quizData q !! currentQuestionIndex q = Some question ∧
    run data dataset [ClickNext; ClickPrev] app =
    {| navigationStack :=
         navigationStack app ++ [quiz_state q; quiz_state q];
       view := QuestionPage q (question_dom q question) |}.
Proof.
  intros Hview Hlt. destruct app as [stack v]. cbn in Hview. subst v.
  cbn [run foldl].
  assert (∃ next,
    dispatch data dataset ClickNext
      {| navigationStack := stack; view := QuestionPage q d |} =
    {| navigationStack := stack ++ [quiz_state q];
       view := QuestionPage (with_index q (currentQuestionIndex q + 1))
                 (question_dom (with_index q (currentQuestionIndex q + 1))
                    next) |}) as [next ->].
  { destruct (handleNext_advance_page q
                {| navigationStack := stack; view := QuestionPage q d |} Hlt)
      as (next & _ & Heq).
    exists next. unfold dispatch. cbn [view listener].
    unfold exec, mbind, M_bind. by rewrite Heq. }
  set (q1 := with_index q (currentQuestionIndex q + 1)).
  destruct (handlePrev_back_page q1
              {| navigationStack := stack ++ [quiz_state q];
                 view := QuestionPage q1 (question_dom q1 next) |})
    as (question & Hq & Heq).
  { cbn. lia. }
  { cbn. unfold quizData in *. cbn. lia. }
  exists question. split.
  { unfold q1 in Hq. cbn in Hq. unfold quizData in *. cbn in Hq.
    by replace (currentQuestionIndex q + 1 - 1)%nat
      with (currentQuestionIndex q) in Hq by lia. }
  unfold dispatch. cbn [view listener question_dom prevDisabled].
  rewrite bool_decide_eq_false_2 by (cbn; lia).
  unfold exec, mbind, M_bind. rewrite Heq. cbn [snd].
  unfold q1. rewrite with_index_back.
  change (quiz_state (with_index q _)) with (quiz_state q).
  unfold mret, M_ret. cbn [snd navigationStack]. by rewrite <- app_assoc.
Qed.

Lemma next_then_previous_rerenders_witness :
  let app := run db id (open_quiz "anatomy" ++ [ClickOption 0]) init in
  let q := closure_of anatomy 0 [Js.Number 0; Js.Null; Js.Null] in
  ∃ question,
    quizData q !! currentQuestionIndex q = Some question ∧
    run db id [ClickNext; ClickPrev] app =
    {| navigationStack :=
         navigationStack app ++ [quiz_state q; quiz_state q];
       view := QuestionPage q (question_dom q question) |}.
Proof.
  apply (next_then_previous_rerenders db id
           (run db id (open_quiz "anatomy" ++ [ClickOption 0]) init)
           (closure_of anatomy 0 [Js.Number 0; Js.Null; Js.Null])
           {| optionCount := 3; optionsDisabled := true;
              prevDisabled := true; explanationShown := true |}).
  - vm_compute. reflexivity.
  - cbn. lia.
Defined.

Lemma session_keeps_call les answers op app :
  is_navigation op →
  session_keeps les answers app → session_keeps les answers (call op app).
Proof.
  intros Hnav (q & Hs & Hles & Ha & Hi). unfold call. rewrite Hs.
  destruct op as [| |k]; [| |done].
  - destruct (decide (currentQuestionIndex q + 1 < length (quizData q))%nat)
      as [Hlt|Hge].
    + destruct (handleNext_advance q app Hlt) as [d Heq].
      unfold exec. rewrite Heq. eexists. split; [done|].
      split_and!; [done..|]. cbn. unfold quizData in *. cbn. lia.
    + unfold exec. rewrite handleNext_finish, renderResults_eq by done.
      by exists q.
  - destruct (decide (currentQuestionIndex q = 0%nat)) as [H0|Hpos].
    + unfold exec. rewrite handlePrev_first by done. by exists q.
    + destruct (handlePrev_back q app) as [d Heq]; [lia..|].
      unfold exec. rewrite Heq. eexists. split; [done|].
      split_and!; [done..|]. cbn. unfold quizData in *. cbn. lia.
Qed.

(** X19. [next()] and [prev()] never touch the recorded answers: after
    any sequence of them on a session whose index is inside the quiz, the
    closure of the page holds the same [userAnswers] and the same lesson,
    and its index is still inside the quiz. *)
Theorem navigation_keeps_answers
    (app : App) (q : QuizClosure) (ops : list SessionOp) :
  session (view app) = Some q →
  (currentQuestionIndex q < length (quizData q))%nat →
  Forall is_navigation ops →
  ∃ q',
    session (view (calls ops app)) = Some q' ∧
    userAnswers q' = userAnswers q ∧
    lesson q' = lesson q ∧
    (currentQuestionIndex q' < length (quizData q'))%nat.
Proof.
  intros Hs Hi Hops.
  assert (session_keeps (lesson q) (userAnswers q) (calls ops app)) as Hk.
  { assert (session_keeps (lesson q) (userAnswers q) app) as Happ
      by (by exists q).
    clear Hs Hi. revert app Happ.
    induction Hops as [|op ops Hop _ IH]; intros app Happ; [done|].
    cbn. apply IH. by apply session_keeps_call. }
  destruct Hk as (q' & ? & ? & ? & ?). by exists q'.
Qed.

Lemma navigation_keeps_answers_witness :
  let app := run db id (open_quiz "anatomy" ++ [ClickOption 1]) init in
  let q := closure_of anatomy 0 [Js.Number 1; Js.Null; Js.Null] in
  ∃ q',
    session (view (calls [OpNext; OpNext; OpPrev; OpNext; OpNext] app)) =
      Some q' ∧
    userAnswers q' = userAnswers q ∧
    lesson q' = lesson q ∧
    (currentQuestionIndex q' < length (quizData q'))%nat.
Proof.
  apply (navigation_keeps_answers
           (run db id (open_quiz "anatomy" ++ [ClickOption 1]) init)
           (closure_of anatomy 0 [Js.Number 1; Js.Null; Js.Null])
           [OpNext; OpNext; OpPrev; OpNext; OpNext]).
  - vm_compute. reflexivity.
  - cbn. lia.
  - repeat constructor.
Defined.

End QuestionNavigation.
